(** * ATtiny85 AC phase-angle dimmer: model of [avr/Attiny85-Dimmer/src/main.cpp]

    The firmware has two execution contexts: the Timer1 compare-match
    interrupt (one invocation per 50 us tick) and the background
    [setup]/[loop] code.  Both are modelled as functions on a record of the
    firmware's global and static variables; the 8- and 16-bit C integer
    types are integers of [Z] with the truncation written at every store. *)

From Stdlib Require Import ZArith List Bool Lia.
Import ListNotations.
Local Open Scope Z_scope.

(** ** Fixed-width integers *)

Definition u8 (x : Z) : Z := x mod 256.
Definition u16 (x : Z) : Z := x mod 65536.
Definition s16 (x : Z) : Z := (x + 32768) mod 65536 - 32768.
Definition s32 (x : Z) : Z := (x + 2147483648) mod 4294967296 - 2147483648.

(** ** Constants (main.cpp, lines 58-95) *)

Definition TRIAC_PIN : Z := 0.
Definition DEBUG_PIN : Z := 1.
Definition ZC_PIN : Z := 2.

Definition TRIGGER_PULSE_WIDTH : Z := 10.
Definition ZC_OFFSET : Z := 8.
Definition SAFETY_TIMEOUT : Z := 210.
Definition MIN_ZC_PERIOD : Z := 140.
Definition MIN_DIM_DEFAULT : Z := 62.
Definition MIN_DIM_BASE : Z := 62.
Definition MAX_DIM_DEFAULT : Z := 157.
Definition MAX_DIM_MARGIN : Z := 9.
Definition MAX_DIM_MIN : Z := 156.
Definition MAX_DIM_MAX : Z := 195.
Definition MIN_DIM_MIN : Z := 50.
Definition MIN_DIM_MAX : Z := 80.

Definition ADC_MIN : Z := 61.
Definition ADC_MAX : Z := 880.
Definition ADC_OFF : Z := 920.
Definition DIM_OFF : Z := 255.

Definition S_IDLE : Z := 0.
Definition S_ZC_OFFSET : Z := 1.
Definition S_DELAY : Z := 2.
Definition S_TRIGGER : Z := 3.

(** ** The firmware's variables

    [state], [counter], [dimValue], [calibMode], [calibCounter], [minDim]
    and [maxDim] are the volatile globals; [lastPin] and [zcTimer] are the
    function-local statics of the interrupt handler; [PORTB] is the output
    port register. *)

Record State : Type := mkState {
  state : Z;
  counter : Z;
  dimValue : Z;
  calibMode : bool;
  calibCounter : Z;
  minDim : Z;
  maxDim : Z;
  lastPin : Z;
  zcTimer : Z;
  PORTB : Z
}.

Definition set_state (v : Z) (s : State) : State :=
  mkState v (counter s) (dimValue s) (calibMode s) (calibCounter s)
          (minDim s) (maxDim s) (lastPin s) (zcTimer s) (PORTB s).
Definition set_counter (v : Z) (s : State) : State :=
  mkState (state s) v (dimValue s) (calibMode s) (calibCounter s)
          (minDim s) (maxDim s) (lastPin s) (zcTimer s) (PORTB s).
Definition set_dimValue (v : Z) (s : State) : State :=
  mkState (state s) (counter s) v (calibMode s) (calibCounter s)
          (minDim s) (maxDim s) (lastPin s) (zcTimer s) (PORTB s).
Definition set_calibMode (v : bool) (s : State) : State :=
  mkState (state s) (counter s) (dimValue s) v (calibCounter s)
          (minDim s) (maxDim s) (lastPin s) (zcTimer s) (PORTB s).
Definition set_calibCounter (v : Z) (s : State) : State :=
  mkState (state s) (counter s) (dimValue s) (calibMode s) v
          (minDim s) (maxDim s) (lastPin s) (zcTimer s) (PORTB s).
Definition set_minDim (v : Z) (s : State) : State :=
  mkState (state s) (counter s) (dimValue s) (calibMode s) (calibCounter s)
          v (maxDim s) (lastPin s) (zcTimer s) (PORTB s).
Definition set_maxDim (v : Z) (s : State) : State :=
  mkState (state s) (counter s) (dimValue s) (calibMode s) (calibCounter s)
          (minDim s) v (lastPin s) (zcTimer s) (PORTB s).
Definition set_lastPin (v : Z) (s : State) : State :=
  mkState (state s) (counter s) (dimValue s) (calibMode s) (calibCounter s)
          (minDim s) (maxDim s) v (zcTimer s) (PORTB s).
Definition set_zcTimer (v : Z) (s : State) : State :=
  mkState (state s) (counter s) (dimValue s) (calibMode s) (calibCounter s)
          (minDim s) (maxDim s) (lastPin s) v (PORTB s).
Definition set_PORTB (v : Z) (s : State) : State :=
  mkState (state s) (counter s) (dimValue s) (calibMode s) (calibCounter s)
          (minDim s) (maxDim s) (lastPin s) (zcTimer s) v.

(** [PORTB |= (1 << pin)], [PORTB &= ~mask] and [PORTB ^= (1 << pin)]. *)
Definition port_set (pin : Z) (s : State) : State :=
  set_PORTB (u8 (Z.lor (PORTB s) (Z.shiftl 1 pin))) s.
Definition port_clear_mask (mask : Z) (s : State) : State :=
  set_PORTB (u8 (Z.land (PORTB s) (Z.lnot mask))) s.
Definition port_clear (pin : Z) (s : State) : State :=
  port_clear_mask (Z.shiftl 1 pin) s.
Definition port_toggle (pin : Z) (s : State) : State :=
  set_PORTB (u8 (Z.lxor (PORTB s) (Z.shiftl 1 pin))) s.

(** The gate-drive output is bit [TRIAC_PIN] of [PORTB]. *)
Definition triac (s : State) : bool := Z.testbit (PORTB s) TRIAC_PIN.

(** ** The tick handler, ISR(TIMER1_COMPA_vect) (main.cpp, lines 213-286)

    [pinb] is the value of the input register PINB sampled by this
    invocation. *)

Definition zc_accept (rising zc : Z) : bool :=
  negb (rising =? 0) && (MIN_ZC_PERIOD <? zc).

(** Edge detection and the saturating minimum-period timer (lines 220-229). *)
Definition curPin (pinb : Z) : Z := u8 (Z.land (Z.shiftr pinb ZC_PIN) 1).

Definition rising_edge (pinb : Z) (s : State) : Z :=
  u8 (Z.land (curPin pinb) (Z.lnot (lastPin s))).

Definition poll (pinb : Z) (s : State) : State :=
  let s := set_lastPin (curPin pinb) s in
  if zcTimer s <? 255 then set_zcTimer (u8 (zcTimer s + 1)) s else s.

(** The [switch (state)] (lines 232-285). *)
Definition phase (rising : Z) (s : State) : State :=
  if state s =? S_IDLE then
    if zc_accept rising (zcTimer s) then
      port_toggle DEBUG_PIN
        (set_state S_ZC_OFFSET (set_counter 0 (set_zcTimer 0 s)))
    else s
  else if state s =? S_ZC_OFFSET then
    let s := set_counter (u8 (counter s + 1)) s in
    if ZC_OFFSET <=? counter s then set_state S_DELAY (set_counter 0 s)
    else s
  else if state s =? S_DELAY then
    let s := set_counter (u8 (counter s + 1)) s in
    if dimValue s <=? counter s then
      set_state S_TRIGGER (set_counter 0 (port_set TRIAC_PIN s))
    else if SAFETY_TIMEOUT <=? counter s then
      set_state S_IDLE (port_clear TRIAC_PIN s)
    else s
  else if state s =? S_TRIGGER then
    let s := set_counter (u8 (counter s + 1)) s in
    if TRIGGER_PULSE_WIDTH <=? counter s then
      set_state S_IDLE (port_clear TRIAC_PIN s)
    else s
  else
    set_state S_IDLE (port_clear TRIAC_PIN s).

Definition TIMER1_COMPA_vect (pinb : Z) (s : State) : State :=
  if calibMode s then set_calibCounter (u16 (calibCounter s + 1)) s
  else phase (rising_edge pinb s) (poll pinb s).

(** This invocation of the handler takes the accepting branch of the Idle
    case. *)
Definition accepts (pinb : Z) (s : State) : bool :=
  negb (calibMode s) && (state s =? S_IDLE) &&
  zc_accept (rising_edge pinb s) (zcTimer (poll pinb s)).

(** ** The background loop (main.cpp, lines 288-320) *)

(** Modelled from the spec: the linear map of the dimming input mapper.
    The source calls the Arduino core's [map], which is declared in
    Arduino.h and defined outside the repository; it computes the linear
    interpolation below in 32-bit [long] arithmetic with C's truncating
    division. *)
Definition map (x in_min in_max out_min out_max : Z) : Z :=
  s32 (s32 (Z.quot (s32 (s32 (x - in_min) * s32 (out_max - out_min)))
                   (s32 (in_max - in_min)))
       + out_min).

Definition potScaled (potValue : Z) : Z :=
  if potValue <=? ADC_MIN then 0
  else if ADC_MAX <=? potValue then 1023
  else s16 (s32 (Z.quot (s32 (s32 (s16 (potValue - ADC_MIN)) * 1023))
                        (ADC_MAX - ADC_MIN))).

Definition tempDimValue (potValue lo hi : Z) : Z :=
  if ADC_OFF <=? potValue then DIM_OFF
  else u8 (map (potScaled potValue) 0 1023 lo hi).

(** One iteration of [loop]; [adc] is the result of [analogRead]. *)
Definition loop (adc : Z) (s : State) : State :=
  set_dimValue (tempDimValue adc (minDim s) (maxDim s)) s.

(** ** Calibration in [setup] (main.cpp, lines 146-199) *)

Definition in_window (ticks : Z) : bool := (140 <=? ticks) && (ticks <=? 220).

(** The measurement loop [while (samples < 8)].  [edges i] is the value of
    [calibCounter] read at the [i]-th rising edge after synchronisation, or
    [None] when no further edge arrives and the busy-wait never returns.
    The result is [periodSum] and the number of edges consumed; [None]
    means that the loop has not finished within [fuel] iterations. *)
Fixpoint measure (fuel : nat) (edges : nat -> option Z) (i : nat)
         (periodSum samples : Z) : option (Z * nat) :=
  match fuel with
  | O => None
  | S fuel' =>
      if samples <? 8 then
        match edges i with
        | None => None
        | Some ticks =>
            if in_window ticks
            then measure fuel' edges (S i) (u16 (periodSum + ticks)) (u8 (samples + 1))
            else measure fuel' edges (S i) periodSum samples
        end
      else Some (periodSum, i)
  end.

Definition clamp_if (lo hi x : Z) : Z :=
  let x := if x <? lo then lo else x in
  if hi <? x then hi else x.

Definition calc_bounds (periodSum : Z) (s : State) : State :=
  let avgPeriod := u8 (Z.quot periodSum 8) in
  let calcMax := clamp_if MAX_DIM_MIN MAX_DIM_MAX (s16 (avgPeriod - MAX_DIM_MARGIN)) in
  let s := set_maxDim (u8 calcMax) s in
  let calcMin :=
    clamp_if MIN_DIM_MIN MIN_DIM_MAX
             (s16 (s16 (Z.quot (s16 (avgPeriod * MIN_DIM_BASE)) 166) - 1)) in
  set_minDim (u8 calcMin) s.

(** The variables' initial values; the reset value of the port register is
    not fixed by the source and is a parameter. *)
Definition power_on (portb : Z) : State :=
  mkState S_IDLE 0 DIM_OFF true 0 MIN_DIM_DEFAULT MAX_DIM_DEFAULT 0 255 (u8 portb).

(** [setup]: pin initialisation, synchronisation on a first rising edge
    ([sync] tells whether it ever arrives), measurement, derivation of the
    bounds, switch to normal mode.  [calibCounter] is left at its last
    reset; nothing reads it once [calibMode] is cleared. *)
Definition setup (fuel : nat) (sync : bool) (edges : nat -> option Z)
           (s : State) : option State :=
  let s := port_clear_mask
             (Z.lor (Z.lor (Z.shiftl 1 TRIAC_PIN) (Z.shiftl 1 DEBUG_PIN))
                    (Z.shiftl 1 ZC_PIN)) s in
  let s := set_calibCounter 0 (set_calibMode true s) in
  if sync then
    match measure fuel edges 0 0 0 with
    | None => None
    | Some (periodSum, _) =>
        Some (set_calibMode false (calc_bounds periodSum (set_calibCounter 0 s)))
    end
  else None.

(** ** Executions *)

(** What happens around one tick: the background loop may have completed
    an iteration (with ADC reading [bg_adc]) since the previous tick, then
    the handler runs on the pin sample [pinb]. *)
Record TickIn : Type := mkIn { bg_adc : option Z; pinb_in : Z }.

Definition background (a : option Z) (s : State) : State :=
  match a with Some adc => loop adc s | None => s end.

Definition step (s : State) (i : TickIn) : State :=
  TIMER1_COMPA_vect (pinb_in i) (background (bg_adc i) s).

(** The handler invocation of this tick accepts a zero-cross edge. *)
Definition step_accepts (s : State) (i : TickIn) : bool :=
  accepts (pinb_in i) (background (bg_adc i) s).

Definition run (s : State) (ins : list TickIn) : State := fold_left step ins s.

(** Ticks during which the background loop does not write [dimValue]. *)
Definition quiet (pins : list Z) : list TickIn := List.map (mkIn None) pins.

Inductive reachable : State -> Prop :=
| reach_setup : forall fuel sync edges portb s,
    setup fuel sync edges (power_on portb) = Some s -> reachable s
| reach_step : forall s i, reachable s -> reachable (step s i).

(** ** The spec's formulas for the calibration result *)

Definition clamp (x lo hi : Z) : Z := Z.max lo (Z.min x hi).

Definition sumZ (l : list Z) : Z := fold_right Z.add 0 l.

(** Readings delivered before the busy-wait blocks, at most [n] of them,
    starting at edge [i]. *)
Fixpoint delivered (edges : nat -> option Z) (i n : nat) : list Z :=
  match n with
  | O => []
  | S n' => match edges i with
            | None => []
            | Some t => t :: delivered edges (S i) n'
            end
  end.

Definition accepted (edges : nat -> option Z) (n : nat) : list Z :=
  filter in_window (delivered edges 0 n).

(** ** Shapes of states used in the statements *)

(** The state [k] quiet ticks after the tick that accepted the edge. *)
Definition onset_shape (d : Z) (k : nat) (s' : State) : Prop :=
  calibMode s' = false /\ dimValue s' = d /\
  if Z.of_nat k <? ZC_OFFSET
  then state s' = S_ZC_OFFSET /\ counter s' = Z.of_nat k /\ triac s' = false
  else if Z.of_nat k <? ZC_OFFSET + d
  then state s' = S_DELAY /\ counter s' = Z.of_nat k - ZC_OFFSET /\ triac s' = false
  else state s' = S_TRIGGER /\ counter s' = 0 /\ triac s' = true.

(** What each phase guarantees about the phase counter and the output. *)
Definition phase_inv (s : State) : Prop :=
  (state s = S_IDLE /\ triac s = false) \/
  (state s = S_ZC_OFFSET /\ 0 <= counter s < ZC_OFFSET /\ triac s = false) \/
  (state s = S_DELAY /\ 0 <= counter s < SAFETY_TIMEOUT /\ triac s = false) \/
  (state s = S_TRIGGER /\ 0 <= counter s < TRIGGER_PULSE_WIDTH /\ triac s = true).

Definition Inv (s : State) : Prop :=
  calibMode s = false /\
  MIN_DIM_MIN <= minDim s <= MIN_DIM_MAX /\
  MAX_DIM_MIN <= maxDim s <= MAX_DIM_MAX /\
  phase_inv s.

(** ** A sample execution

    Calibration on a 60 Hz supply (every half-cycle read as 166 ticks), then
    one tick during which the background loop has converted an ADC reading
    of 226 while the sense input is low. *)
Definition calibrated : State :=
  match setup 9 true (fun _ => Some 166) (power_on 0) with
  | Some s => s
  | None => power_on 0
  end.

Definition dimmed : State := step calibrated (mkIn (Some 226) 0).

(** The same execution continued: the edge is accepted on the next tick
    (sense input high) and the input stays low afterwards. *)
Definition delaying : State := run dimmed (quiet (4 :: repeat 0 20)).
Definition firing : State := run dimmed (quiet (4 :: repeat 0 88)).

(** With the control input left at 5 V (ADC reading 1023) instead, eight
    ticks after an accepted edge. *)
Definition switched_off : State :=
  run calibrated (mkIn (Some 1023) 4 :: quiet (repeat 0 8)).

(** A supply observed through a noisy sense input: every second reading is
    a 30-tick glitch. *)
Definition noisy_edges (i : nat) : option Z :=
  if Nat.even i then Some 166 else Some 30.

(** A supply that stops after 7 edges, and one on which every reading is
    a glitch. *)
Definition short_edges (i : nat) : option Z :=
  if (i <? 7)%nat then Some 166 else None.

Definition glitch_edges (i : nat) : option Z := Some 30.

(** ** Observations on executions *)

(** The diagnostic LED is bit [DEBUG_PIN] of [PORTB]. *)
Definition debug_led (s : State) : bool := Z.testbit (PORTB s) DEBUG_PIN.

(** The sense input as the handler sees it: bit [ZC_PIN] of the sample. *)
Definition sense (pinb : Z) : bool := Z.testbit pinb ZC_PIN.

(** Number of ticks of an execution on which the handler accepts an edge. *)
Fixpoint accept_count (s : State) (ins : list TickIn) : nat :=
  match ins with
  | [] => O
  | i :: rest =>
      ((if step_accepts s i then 1 else 0) + accept_count (step s i) rest)%nat
  end.

(** The background loop leaves the control input at or above the OFF
    threshold on every iteration of this execution. *)
Definition input_off (i : TickIn) : Prop :=
  match bg_adc i with Some a => ADC_OFF <= a | None => True end.

(** The handler's statics stay in the ranges the edge detector relies on. *)
Definition statics_ok (s : State) : Prop :=
  (lastPin s = 0 \/ lastPin s = 1) /\ 0 <= zcTimer s <= 255.

(** The state [k] quiet ticks after the tick that accepted an edge, over
    the whole busy part of the half-cycle. *)
Definition cycle_shape (d : Z) (k : nat) (s' : State) : Prop :=
  calibMode s' = false /\ dimValue s' = d /\ zcTimer s' = Z.of_nat k /\
  if Z.of_nat k <? ZC_OFFSET
  then state s' = S_ZC_OFFSET /\ counter s' = Z.of_nat k /\ triac s' = false
  else if Z.of_nat k <? ZC_OFFSET + d
  then state s' = S_DELAY /\ counter s' = Z.of_nat k - ZC_OFFSET /\ triac s' = false
  else if Z.of_nat k <? ZC_OFFSET + d + TRIGGER_PULSE_WIDTH
  then state s' = S_TRIGGER /\ counter s' = Z.of_nat k - ZC_OFFSET - d /\
       triac s' = true
  else state s' = S_IDLE /\ triac s' = false.

(** An upper bound on the number of ticks before the state machine is Idle
    again. *)
Definition remaining (s : State) : Z :=
  if state s =? S_ZC_OFFSET
  then ZC_OFFSET - counter s + SAFETY_TIMEOUT + TRIGGER_PULSE_WIDTH
  else if state s =? S_DELAY
  then SAFETY_TIMEOUT - counter s + TRIGGER_PULSE_WIDTH
  else if state s =? S_TRIGGER then TRIGGER_PULSE_WIDTH - counter s
  else 0.

(** ** The earlier controllers kept beside the main one

    Two simpler dimmers driven by the external zero-cross interrupt.  Their
    variables are C [int]s (16 bits on AVR); the timer handler and the
    zero-cross handler are separate functions on the variables. *)

(** The first controller: second program of main.cpp (lines 383-450) and
    main_uno.cpp (lines 41-92), which have the same handlers.  [triacOut] is
    the level last written to the triac pin by [digitalWrite]. *)
Module PlainDimmer.

Record State : Type := mkState {
  counter : Z;
  zeroCrossDetected : bool;
  dimValue : Z;
  potValue : Z;
  triacOut : bool
}.

(** ISR(INT0_vect) / zeroCrossDetect. *)
Definition INT0_vect (s : State) : State :=
  mkState 0 true (dimValue s) (potValue s) false.

Definition TIMER1_COMPA_vect (s : State) : State :=
  if zeroCrossDetected s then
    if (dimValue s =? 0) || (dimValue s <=? counter s)
    then mkState 0 false (dimValue s) (potValue s) true
    else mkState (s16 (counter s + 1)) true (dimValue s) (potValue s) (triacOut s)
  else s.

Definition loop (adc : Z) (s : State) : State :=
  mkState (counter s) (zeroCrossDetected s) (s16 (map adc 0 1023 0 100)) adc
          (triacOut s).

Definition ticks (n : nat) (s : State) : State := Nat.iter n TIMER1_COMPA_vect s.

End PlainDimmer.

(** The second controller (src/unnamed/part_002): a debounced zero-cross
    interrupt and a one-tick gate pulse.  [now] is the value returned by
    [micros()], a 32-bit unsigned count of microseconds. *)
Module PulseDimmer.

Definition u32 (x : Z) : Z := x mod 4294967296.

Definition triacPin : Z := 0.
Definition MIN_DIM : Z := 0.
Definition MAX_DIM : Z := 158.

Record State : Type := mkState {
  counter : Z;
  zeroCrossDetected : bool;
  triacTriggered : bool;
  triggerPulseCounter : Z;
  lastZeroCrossTime : Z;
  potValue : Z;
  dimValue : Z;
  PORTB : Z
}.

Definition triac (s : State) : bool := Z.testbit (PORTB s) triacPin.

Definition INT0_vect (now : Z) (s : State) : State :=
  if negb (zeroCrossDetected s) && (2000 <? u32 (now - lastZeroCrossTime s))
  then mkState 0 true false (triggerPulseCounter s) now (potValue s) (dimValue s)
               (u8 (Z.land (PORTB s) (Z.lnot (Z.shiftl 1 triacPin))))
  else s.

Definition TIMER1_COMPA_vect (s : State) : State :=
  if zeroCrossDetected s then
    if triacTriggered s then
      let c := s16 (triggerPulseCounter s + 1) in
      if 1 <=? c
      then mkState (counter s) false false 0 (lastZeroCrossTime s) (potValue s)
                   (dimValue s)
                   (u8 (Z.land (PORTB s) (Z.lnot (Z.shiftl 1 triacPin))))
      else mkState (counter s) true true c (lastZeroCrossTime s) (potValue s)
                   (dimValue s) (PORTB s)
    else if dimValue s <=? counter s
    then mkState (counter s) true true 0 (lastZeroCrossTime s) (potValue s)
                 (dimValue s) (u8 (Z.lor (PORTB s) (Z.shiftl 1 triacPin)))
    else mkState (s16 (counter s + 1)) true false (triggerPulseCounter s)
                 (lastZeroCrossTime s) (potValue s) (dimValue s) (PORTB s)
  else s.

Definition loop (adc : Z) (s : State) : State :=
  mkState (counter s) (zeroCrossDetected s) (triacTriggered s)
          (triggerPulseCounter s) (lastZeroCrossTime s) adc
          (s16 (map adc 0 1023 MIN_DIM MAX_DIM)) (PORTB s).

(** The variables' initial values, after [setup] has driven the triac pin
    low; the other port bits are a parameter. *)
Definition power_on (portb : Z) : State :=
  mkState 0 false false 0 0 0 MAX_DIM
          (u8 (Z.land portb (Z.lnot (Z.shiftl 1 triacPin)))).

Inductive event : Type :=
| Tick : event
| ZeroCross : Z -> event
| Loop : Z -> event.

Definition exec (s : State) (e : event) : State :=
  match e with
  | Tick => TIMER1_COMPA_vect s
  | ZeroCross now => INT0_vect now s
  | Loop adc => loop adc s
  end.

Definition run (s : State) (es : list event) : State := fold_left exec es s.

Definition ticks (n : nat) (s : State) : State := Nat.iter n TIMER1_COMPA_vect s.

(** While the output is asserted a zero-cross is pending, the pulse has
    been started and its counter is at 0. *)
Definition pulse_inv (s : State) : Prop :=
  triac s = true ->
  zeroCrossDetected s = true /\ triacTriggered s = true /\
  triggerPulseCounter s = 0.

End PulseDimmer.

(** * Properties *)

(** ** Arithmetic of the fixed-width casts *)

Lemma u8_range (x : Z) : 0 <= u8 x < 256.
Proof. unfold u8. apply Z.mod_pos_bound. lia. Qed.

Lemma u8_small (x : Z) : 0 <= x < 256 -> u8 x = x.
Proof. intros H. unfold u8. apply Z.mod_small. exact H. Qed.

Lemma u16_small (x : Z) : 0 <= x < 65536 -> u16 x = x.
Proof. intros H. unfold u16. apply Z.mod_small. exact H. Qed.

Lemma s16_small (x : Z) : -32768 <= x < 32768 -> s16 x = x.
Proof. intros H. unfold s16. rewrite Z.mod_small; lia. Qed.

Lemma s32_small (x : Z) : -2147483648 <= x < 2147483648 -> s32 x = x.
Proof. intros H. unfold s32. rewrite Z.mod_small; lia. Qed.

Lemma testbit_u8_low (x i : Z) : 0 <= i < 8 -> Z.testbit (u8 x) i = Z.testbit x i.
Proof.
  intros H. unfold u8. change 256 with (2 ^ 8).
  apply Z.mod_pow2_bits_low. lia.
Qed.

(** ** The output port *)

Lemma triac_port_set (s : State) : triac (port_set TRIAC_PIN s) = true.
Proof.
  unfold triac, port_set, TRIAC_PIN. cbn [PORTB set_PORTB].
  rewrite testbit_u8_low by lia. rewrite Z.lor_spec.
  change (Z.testbit (Z.shiftl 1 0) 0) with true. apply orb_true_r.
Qed.

Lemma triac_port_clear (s : State) : triac (port_clear TRIAC_PIN s) = false.
Proof.
  unfold triac, port_clear, port_clear_mask, TRIAC_PIN. cbn [PORTB set_PORTB].
  rewrite testbit_u8_low by lia. rewrite Z.land_spec.
  change (Z.testbit (Z.lnot (Z.shiftl 1 0)) 0) with false. apply andb_false_r.
Qed.

Lemma triac_port_toggle (s : State) : triac (port_toggle DEBUG_PIN s) = triac s.
Proof.
  unfold triac, port_toggle, TRIAC_PIN, DEBUG_PIN. cbn [PORTB set_PORTB].
  rewrite testbit_u8_low by lia. rewrite Z.lxor_spec.
  change (Z.testbit (Z.shiftl 1 1) 0) with false. apply xorb_false_r.
Qed.

Lemma triac_setup_clear (s : State) :
  triac (port_clear_mask
           (Z.lor (Z.lor (Z.shiftl 1 TRIAC_PIN) (Z.shiftl 1 DEBUG_PIN))
                  (Z.shiftl 1 ZC_PIN)) s) = false.
Proof.
  unfold triac, port_clear_mask, TRIAC_PIN, DEBUG_PIN, ZC_PIN. cbn [PORTB set_PORTB].
  rewrite testbit_u8_low by lia. rewrite Z.land_spec.
  match goal with |- _ && ?b = _ => change b with false end.
  apply andb_false_r.
Qed.

(** ** One invocation of the tick handler *)

Ltac fields :=
  cbn [state counter dimValue calibMode calibCounter minDim maxDim lastPin
       zcTimer PORTB set_state set_counter set_dimValue set_calibMode
       set_calibCounter set_minDim set_maxDim set_lastPin set_zcTimer
       set_PORTB] in *.

(** [poll] touches the two statics of the handler and nothing else. *)
Lemma poll_state (p : Z) (s : State) : state (poll p s) = state s.
Proof. unfold poll. fields. destruct (zcTimer s <? 255); reflexivity. Qed.

Lemma poll_counter (p : Z) (s : State) : counter (poll p s) = counter s.
Proof. unfold poll. fields. destruct (zcTimer s <? 255); reflexivity. Qed.

Lemma poll_dimValue (p : Z) (s : State) : dimValue (poll p s) = dimValue s.
Proof. unfold poll. fields. destruct (zcTimer s <? 255); reflexivity. Qed.

Lemma poll_calibMode (p : Z) (s : State) : calibMode (poll p s) = calibMode s.
Proof. unfold poll. fields. destruct (zcTimer s <? 255); reflexivity. Qed.

Lemma poll_PORTB (p : Z) (s : State) : PORTB (poll p s) = PORTB s.
Proof. unfold poll. fields. destruct (zcTimer s <? 255); reflexivity. Qed.

Lemma poll_triac (p : Z) (s : State) : triac (poll p s) = triac s.
Proof. unfold triac. rewrite poll_PORTB. reflexivity. Qed.

Lemma poll_lastPin (p : Z) (s : State) : lastPin (poll p s) = curPin p.
Proof. unfold poll. fields. destruct (zcTimer s <? 255); reflexivity. Qed.

Lemma poll_zcTimer (p : Z) (s : State) :
  zcTimer (poll p s) = if zcTimer s <? 255 then u8 (zcTimer s + 1) else zcTimer s.
Proof. unfold poll. fields. destruct (zcTimer s <? 255); reflexivity. Qed.

Create Rewrite HintDb isr.

#[local] Hint Rewrite poll_state poll_counter poll_dimValue poll_calibMode
  poll_triac poll_PORTB poll_lastPin : isr.

(** Setters that do not touch the port leave the output alone. *)
Lemma triac_set_state (v : Z) (s : State) : triac (set_state v s) = triac s.
Proof. reflexivity. Qed.

Lemma triac_set_counter (v : Z) (s : State) : triac (set_counter v s) = triac s.
Proof. reflexivity. Qed.

Lemma triac_set_zcTimer (v : Z) (s : State) : triac (set_zcTimer v s) = triac s.
Proof. reflexivity. Qed.

Lemma triac_set_dimValue (v : Z) (s : State) : triac (set_dimValue v s) = triac s.
Proof. reflexivity. Qed.

#[local] Hint Rewrite triac_set_state triac_set_counter triac_set_zcTimer
  triac_set_dimValue triac_port_set triac_port_clear triac_port_toggle : isr.

Ltac start_isr Hc Hs :=
  unfold TIMER1_COMPA_vect, phase; rewrite Hc; rewrite poll_state, Hs;
  unfold S_IDLE, S_ZC_OFFSET, S_DELAY, S_TRIGGER;
  repeat match goal with
         | |- context [Z.eqb (Zpos ?a) ?b] =>
             let v := eval compute in (Z.eqb (Zpos a) b) in
             change (Z.eqb (Zpos a) b) with v
         | |- context [Z.eqb Z0 ?b] =>
             let v := eval compute in (Z.eqb Z0 b) in
             change (Z.eqb Z0 b) with v
         end;
  cbv iota; fields; rewrite ?poll_counter, ?poll_dimValue;
  unfold ZC_OFFSET, SAFETY_TIMEOUT, TRIGGER_PULSE_WIDTH in *.

Lemma isr_calib (p : Z) (s : State) :
  calibMode s = true ->
  TIMER1_COMPA_vect p s = set_calibCounter (u16 (calibCounter s + 1)) s.
Proof. intros Hc. unfold TIMER1_COMPA_vect. rewrite Hc. reflexivity. Qed.

Lemma isr_idle_accept (p : Z) (s : State) :
  calibMode s = false -> state s = S_IDLE -> accepts p s = true ->
  TIMER1_COMPA_vect p s =
  port_toggle DEBUG_PIN
    (set_state S_ZC_OFFSET (set_counter 0 (set_zcTimer 0 (poll p s)))).
Proof.
  intros Hc Hs Ha. unfold accepts in Ha. rewrite Hc, Hs in Ha.
  change (negb false && (S_IDLE =? S_IDLE)) with true in Ha.
  rewrite andb_true_l in Ha.
  start_isr Hc Hs. rewrite Ha. reflexivity.
Qed.

Lemma isr_idle_reject (p : Z) (s : State) :
  calibMode s = false -> state s = S_IDLE -> accepts p s = false ->
  TIMER1_COMPA_vect p s = poll p s.
Proof.
  intros Hc Hs Ha. unfold accepts in Ha. rewrite Hc, Hs in Ha.
  change (negb false && (S_IDLE =? S_IDLE)) with true in Ha.
  rewrite andb_true_l in Ha.
  start_isr Hc Hs. rewrite Ha. reflexivity.
Qed.

Lemma isr_offset_wait (p : Z) (s : State) :
  calibMode s = false -> state s = S_ZC_OFFSET ->
  0 <= counter s -> counter s + 1 < ZC_OFFSET ->
  TIMER1_COMPA_vect p s = set_counter (counter s + 1) (poll p s).
Proof.
  intros Hc Hs H0 H1. start_isr Hc Hs.
  rewrite u8_small by lia.
  destruct (Z.leb_spec 8 (counter s + 1)); [lia | reflexivity].
Qed.

Lemma isr_offset_done (p : Z) (s : State) :
  calibMode s = false -> state s = S_ZC_OFFSET ->
  ZC_OFFSET <= counter s + 1 < 256 ->
  TIMER1_COMPA_vect p s = set_state S_DELAY (set_counter 0 (poll p s)).
Proof.
  intros Hc Hs H1. start_isr Hc Hs.
  rewrite u8_small by lia.
  destruct (Z.leb_spec 8 (counter s + 1)); [reflexivity | lia].
Qed.

Lemma isr_delay_wait (p : Z) (s : State) :
  calibMode s = false -> state s = S_DELAY ->
  0 <= counter s -> counter s + 1 < dimValue s -> counter s + 1 < SAFETY_TIMEOUT ->
  TIMER1_COMPA_vect p s = set_counter (counter s + 1) (poll p s).
Proof.
  intros Hc Hs H0 H1 H2. start_isr Hc Hs.
  rewrite u8_small by lia.
  destruct (Z.leb_spec (dimValue s) (counter s + 1)); [lia |].
  destruct (Z.leb_spec 210 (counter s + 1)); [lia | reflexivity].
Qed.

Lemma isr_delay_fire (p : Z) (s : State) :
  calibMode s = false -> state s = S_DELAY ->
  0 <= counter s < 255 -> dimValue s <= counter s + 1 ->
  TIMER1_COMPA_vect p s =
  set_state S_TRIGGER
    (set_counter 0 (port_set TRIAC_PIN (set_counter (counter s + 1) (poll p s)))).
Proof.
  intros Hc Hs H0 H1. start_isr Hc Hs.
  rewrite u8_small by lia.
  destruct (Z.leb_spec (dimValue s) (counter s + 1)); [reflexivity | lia].
Qed.

Lemma isr_delay_timeout (p : Z) (s : State) :
  calibMode s = false -> state s = S_DELAY ->
  counter s + 1 < dimValue s -> SAFETY_TIMEOUT <= counter s + 1 < 256 ->
  TIMER1_COMPA_vect p s =
  set_state S_IDLE (port_clear TRIAC_PIN (set_counter (counter s + 1) (poll p s))).
Proof.
  intros Hc Hs H1 H2. start_isr Hc Hs.
  rewrite u8_small by lia.
  destruct (Z.leb_spec (dimValue s) (counter s + 1)); [lia |].
  destruct (Z.leb_spec 210 (counter s + 1)); [reflexivity | lia].
Qed.

Lemma isr_trigger_hold (p : Z) (s : State) :
  calibMode s = false -> state s = S_TRIGGER ->
  0 <= counter s -> counter s + 1 < TRIGGER_PULSE_WIDTH ->
  TIMER1_COMPA_vect p s = set_counter (counter s + 1) (poll p s).
Proof.
  intros Hc Hs H0 H1. start_isr Hc Hs.
  rewrite u8_small by lia.
  destruct (Z.leb_spec 10 (counter s + 1)); [lia | reflexivity].
Qed.

Lemma isr_trigger_end (p : Z) (s : State) :
  calibMode s = false -> state s = S_TRIGGER ->
  TRIGGER_PULSE_WIDTH <= counter s + 1 < 256 ->
  TIMER1_COMPA_vect p s =
  set_state S_IDLE (port_clear TRIAC_PIN (set_counter (counter s + 1) (poll p s))).
Proof.
  intros Hc Hs H1. start_isr Hc Hs.
  rewrite u8_small by lia.
  destruct (Z.leb_spec 10 (counter s + 1)); [reflexivity | lia].
Qed.

Lemma isr_unknown (p : Z) (s : State) :
  calibMode s = false ->
  state s <> S_IDLE -> state s <> S_ZC_OFFSET ->
  state s <> S_DELAY -> state s <> S_TRIGGER ->
  TIMER1_COMPA_vect p s = set_state S_IDLE (port_clear TRIAC_PIN (poll p s)).
Proof.
  intros Hc H0 H1 H2 H3. unfold TIMER1_COMPA_vect, phase.
  rewrite Hc, poll_state.
  apply Z.eqb_neq in H0, H1, H2, H3. rewrite H0, H1, H2, H3. reflexivity.
Qed.

(** ** Executions: the background loop only writes [dimValue] *)

Lemma background_state (a : option Z) (s : State) : state (background a s) = state s.
Proof. destruct a; reflexivity. Qed.

Lemma background_counter (a : option Z) (s : State) :
  counter (background a s) = counter s.
Proof. destruct a; reflexivity. Qed.

Lemma background_calibMode (a : option Z) (s : State) :
  calibMode (background a s) = calibMode s.
Proof. destruct a; reflexivity. Qed.

Lemma background_triac (a : option Z) (s : State) : triac (background a s) = triac s.
Proof. destruct a; reflexivity. Qed.

Lemma background_zcTimer (a : option Z) (s : State) :
  zcTimer (background a s) = zcTimer s.
Proof. destruct a; reflexivity. Qed.

Lemma background_minDim (a : option Z) (s : State) : minDim (background a s) = minDim s.
Proof. destruct a; reflexivity. Qed.

Lemma background_maxDim (a : option Z) (s : State) : maxDim (background a s) = maxDim s.
Proof. destruct a; reflexivity. Qed.

#[local] Hint Rewrite background_state background_counter background_calibMode
  background_triac background_zcTimer background_minDim background_maxDim : isr.

Lemma run_nil (s : State) : run s [] = s.
Proof. reflexivity. Qed.

Lemma run_cons (s : State) (i : TickIn) (ins : list TickIn) :
  run s (i :: ins) = run (step s i) ins.
Proof. reflexivity. Qed.

Lemma run_app (s : State) (a b : list TickIn) : run s (a ++ b) = run (run s a) b.
Proof. unfold run. apply fold_left_app. Qed.

Lemma run_snoc (s : State) (a : list TickIn) (i : TickIn) :
  run s (a ++ [i]) = step (run s a) i.
Proof. rewrite run_app. reflexivity. Qed.

Lemma quiet_length (pins : list Z) : length (quiet pins) = length pins.
Proof. unfold quiet. apply length_map. Qed.

Lemma quiet_firstn (k : nat) (pins : list Z) :
  quiet (firstn k pins) = firstn k (quiet pins).
Proof. unfold quiet. symmetry. apply firstn_map. Qed.

Lemma quiet_dimValue (pins : list Z) :
  Forall (fun i => bg_adc i = None) (quiet pins).
Proof. unfold quiet. apply Forall_forall. intros i Hi.
  apply in_map_iff in Hi. destruct Hi as [p [<- _]]. reflexivity. Qed.

(** A list of known positive length splits into its front and last tick. *)
Lemma split_last (A : Type) (l : list A) (n : nat) :
  length l = S n -> exists a x, l = a ++ [x] /\ length a = n /\ a = firstn n l.
Proof.
  intros H. destruct (exists_last (l := l)) as [a [x E]].
  - intros ->. discriminate.
  - exists a, x. subst l. rewrite length_app in H. simpl in H.
    assert (length a = n) by lia. repeat split; try assumption.
    rewrite firstn_app. replace (n - length a)%nat with 0%nat by lia.
    simpl. rewrite app_nil_r. subst n. symmetry. apply firstn_all.
Qed.

(** ** The Trigger phase *)

Lemma trigger_hold_run (ins : list TickIn) : forall s : State,
  calibMode s = false -> state s = S_TRIGGER -> triac s = true ->
  0 <= counter s -> counter s + Z.of_nat (length ins) < TRIGGER_PULSE_WIDTH ->
  calibMode (run s ins) = false /\ state (run s ins) = S_TRIGGER /\
  triac (run s ins) = true /\
  counter (run s ins) = counter s + Z.of_nat (length ins).
Proof.
  induction ins as [|i ins IH]; intros s Hc Hs Ht H0 H1.
  - rewrite run_nil. simpl. repeat split; try assumption. lia.
  - rewrite run_cons. cbn [length] in *.
    assert (E : step s i = set_counter (counter s + 1)
                             (poll (pinb_in i) (background (bg_adc i) s))).
    { unfold step. rewrite isr_trigger_hold; autorewrite with isr;
        try assumption; try lia. reflexivity. }
    destruct (IH (step s i)) as [A [B [C D]]]; rewrite E; fields;
      autorewrite with isr; try assumption; try lia.
    rewrite <- E. repeat split; try assumption.
    rewrite D, E. fields. lia.
Qed.

Lemma trigger_end_step (s : State) (i : TickIn) :
  calibMode s = false -> state s = S_TRIGGER ->
  counter s + 1 = TRIGGER_PULSE_WIDTH ->
  calibMode (step s i) = false /\ state (step s i) = S_IDLE /\
  triac (step s i) = false.
Proof.
  intros Hc Hs H1. unfold step.
  rewrite isr_trigger_end; autorewrite with isr; try assumption.
  - unfold port_clear, port_clear_mask. fields. autorewrite with isr. auto.
  - unfold TRIGGER_PULSE_WIDTH in *. lia.
Qed.

(** C5: a pulse that starts (state Trigger, counter 0, output asserted) is
    held asserted after each of the next 9 ticks and is deasserted, with the
    state back to Idle, by the 10th tick; this holds for every value of
    [dimValue] in the starting state and every write of the background
    loop during the pulse. *)
Theorem pulse_width_exact (s : State) (ins : list TickIn) :
  calibMode s = false -> state s = S_TRIGGER -> counter s = 0 ->
  triac s = true -> length ins = Z.to_nat TRIGGER_PULSE_WIDTH ->
  (forall k, (k < Z.to_nat TRIGGER_PULSE_WIDTH)%nat ->
     state (run s (firstn k ins)) = S_TRIGGER /\
     triac (run s (firstn k ins)) = true) /\
  state (run s ins) = S_IDLE /\ triac (run s ins) = false.
Proof.
  intros Hc Hs H0 Ht Hl. change (Z.to_nat TRIGGER_PULSE_WIDTH) with 10%nat in *.
  assert (Hk : forall k, (k < 10)%nat ->
     calibMode (run s (firstn k ins)) = false /\
     state (run s (firstn k ins)) = S_TRIGGER /\
     triac (run s (firstn k ins)) = true /\
     counter (run s (firstn k ins)) = Z.of_nat k).
  { intros k Hk.
    destruct (trigger_hold_run (firstn k ins) s) as [A [B [C D]]];
      try assumption; try lia.
    - rewrite length_firstn, H0. unfold TRIGGER_PULSE_WIDTH. lia.
    - repeat split; try assumption.
      rewrite D, H0, length_firstn. lia. }
  split.
  - intros k Hlt. destruct (Hk k Hlt) as [_ [B [C _]]]. auto.
  - destruct (split_last _ ins 9 Hl) as [a [x [E [La Fa]]]].
    destruct (Hk 9%nat) as [A [B [C D]]]; [lia|].
    rewrite <- Fa in A, B, C, D. rewrite E, run_snoc.
    destruct (trigger_end_step (run s a) x) as [_ [P Q]]; auto.
    rewrite D. reflexivity.
Qed.

(** ** Quiet ticks, one at a time *)

Lemma firstn_succ_nth (A : Type) (d : A) (l : list A) : forall k : nat,
  (k < length l)%nat -> firstn (S k) l = firstn k l ++ [nth k l d].
Proof.
  induction l as [|x l IH]; intros k Hk; simpl in Hk; [lia|].
  destruct k as [|k]; [reflexivity|].
  change (firstn (S (S k)) (x :: l)) with (x :: firstn (S k) l).
  rewrite IH by lia. reflexivity.
Qed.

Lemma run_quiet_succ (s : State) (pins : list Z) (k : nat) :
  (k < length pins)%nat ->
  run s (quiet (firstn (S k) pins)) =
  TIMER1_COMPA_vect (nth k pins 0) (run s (quiet (firstn k pins))).
Proof.
  intros Hk. rewrite (firstn_succ_nth Z 0) by assumption.
  unfold quiet. rewrite map_app. apply run_snoc.
Qed.

Lemma run_quiet_all (s : State) (pins : list Z) (n : nat) :
  length pins = n -> run s (quiet pins) = run s (quiet (firstn n pins)).
Proof. intros <-. rewrite firstn_all. reflexivity. Qed.

(** ** The Delay phase with [dimValue] above the safety timeout *)

Lemma delay_off_prefix (s : State) (pins : list Z) :
  calibMode s = false -> state s = S_DELAY -> counter s = 0 ->
  triac s = false -> SAFETY_TIMEOUT < dimValue s ->
  forall k : nat, (k < Z.to_nat SAFETY_TIMEOUT)%nat -> (k <= length pins)%nat ->
  let s' := run s (quiet (firstn k pins)) in
  calibMode s' = false /\ state s' = S_DELAY /\ triac s' = false /\
  counter s' = Z.of_nat k /\ dimValue s' = dimValue s.
Proof.
  intros Hc Hs H0 Ht Hd. change (Z.to_nat SAFETY_TIMEOUT) with 210%nat.
  induction k as [|k IH]; intros Hk Hl; cbv zeta.
  - simpl. auto.
  - destruct IH as [A [B [C [D E]]]]; try lia.
    rewrite run_quiet_succ by lia.
    rewrite isr_delay_wait; try assumption; unfold SAFETY_TIMEOUT in *; try lia.
    fields. autorewrite with isr. repeat split; try assumption. lia.
Qed.

(** C3: with [dimValue] above SAFETY_TIMEOUT (255 included) and unchanged, a
    Delay phase entered with counter 0 and the output deasserted stays in
    Delay with the output deasserted for 209 ticks; the 210th tick brings
    the counter to SAFETY_TIMEOUT, and the handler takes the timeout branch:
    output deasserted, state Idle.  The Trigger state is never entered. *)
Theorem off_never_triggers (s : State) (pins : list Z) :
  calibMode s = false -> state s = S_DELAY -> counter s = 0 ->
  triac s = false -> SAFETY_TIMEOUT < dimValue s ->
  length pins = Z.to_nat SAFETY_TIMEOUT ->
  (forall k, (k < Z.to_nat SAFETY_TIMEOUT)%nat ->
     state (run s (quiet (firstn k pins))) = S_DELAY /\
     triac (run s (quiet (firstn k pins))) = false) /\
  state (run s (quiet pins)) = S_IDLE /\
  triac (run s (quiet pins)) = false /\
  counter (run s (quiet pins)) = SAFETY_TIMEOUT.
Proof.
  intros Hc Hs H0 Ht Hd Hl. split.
  - intros k Hk.
    destruct (delay_off_prefix s pins Hc Hs H0 Ht Hd k) as [_ [B [C _]]];
      try assumption; try lia. auto.
  - change (Z.to_nat SAFETY_TIMEOUT) with 210%nat in Hl.
    destruct (delay_off_prefix s pins Hc Hs H0 Ht Hd 209) as [A [B [C [D E]]]];
      [change (Z.to_nat SAFETY_TIMEOUT) with 210%nat; lia | lia |].
    rewrite (run_quiet_all s pins 210 Hl), run_quiet_succ by lia.
    rewrite isr_delay_timeout; try assumption; unfold SAFETY_TIMEOUT in *; try lia.
    autorewrite with isr. unfold port_clear, port_clear_mask. fields.
    repeat split. lia.
Qed.

(** ** From an accepted edge to the trigger onset *)

Lemma accepted_edge_state (p : Z) (s : State) :
  calibMode s = false -> state s = S_IDLE -> accepts p s = true ->
  let s0 := TIMER1_COMPA_vect p s in
  calibMode s0 = false /\ state s0 = S_ZC_OFFSET /\ counter s0 = 0 /\
  zcTimer s0 = 0 /\ triac s0 = triac s /\ dimValue s0 = dimValue s.
Proof.
  intros Hc Hs Ha. cbv zeta. rewrite isr_idle_accept by assumption.
  autorewrite with isr. unfold port_toggle. fields. autorewrite with isr.
  repeat split; assumption.
Qed.

Lemma onset_prefix (s0 : State) (pins : list Z) (d : Z) :
  calibMode s0 = false -> state s0 = S_ZC_OFFSET -> counter s0 = 0 ->
  triac s0 = false -> dimValue s0 = d -> 1 <= d <= SAFETY_TIMEOUT ->
  forall k : nat, Z.of_nat k <= ZC_OFFSET + d -> (k <= length pins)%nat ->
  onset_shape d k (run s0 (quiet (firstn k pins))).
Proof.
  intros Hc Hs H0 Ht Hd Hr. unfold onset_shape, ZC_OFFSET, SAFETY_TIMEOUT in *.
  induction k as [|k IH]; intros Hk Hl.
  - simpl. auto.
  - destruct IH as [A [B C]]; try lia.
    rewrite run_quiet_succ by lia.
    set (s' := run s0 (quiet (firstn k pins))) in *.
    destruct (Z.ltb_spec (Z.of_nat k) 8) as [K1|K1].
    + destruct C as [C1 [C2 C3]].
      destruct (Z.ltb_spec (Z.of_nat (S k)) 8) as [K2|K2].
      * rewrite isr_offset_wait; try assumption; unfold ZC_OFFSET; try lia.
        fields. autorewrite with isr. repeat split; try assumption. lia.
      * rewrite isr_offset_done; try assumption; unfold ZC_OFFSET; try lia.
        destruct (Z.ltb_spec (Z.of_nat (S k)) (8 + d)); try lia.
        fields. autorewrite with isr. repeat split; try assumption. lia.
    + destruct (Z.ltb_spec (Z.of_nat k) (8 + d)) as [K3|K3]; try lia.
      destruct C as [C1 [C2 C3]].
      destruct (Z.ltb_spec (Z.of_nat (S k)) 8) as [K2|K2]; try lia.
      destruct (Z.ltb_spec (Z.of_nat (S k)) (8 + d)) as [K4|K4].
      * rewrite isr_delay_wait; try assumption; unfold SAFETY_TIMEOUT; try lia.
        fields. autorewrite with isr. repeat split; try assumption. lia.
      * rewrite isr_delay_fire; try assumption; try lia.
        autorewrite with isr. unfold port_set. fields. autorewrite with isr.
        repeat split; try assumption.
Qed.

(** ** Calibration always produces bounds inside the fixed limits *)

Lemma clamp_if_range (lo hi x : Z) : lo <= hi -> lo <= clamp_if lo hi x <= hi.
Proof.
  intros H. unfold clamp_if.
  destruct (Z.ltb_spec x lo); destruct (Z.ltb_spec hi lo);
    try destruct (Z.ltb_spec hi x); lia.
Qed.

Lemma clamp_if_clamp (lo hi x : Z) : lo <= hi -> clamp_if lo hi x = clamp x lo hi.
Proof.
  intros H. unfold clamp_if, clamp.
  destruct (Z.ltb_spec x lo); destruct (Z.ltb_spec hi lo);
    try destruct (Z.ltb_spec hi x); lia.
Qed.

Lemma calc_bounds_maxDim (p : Z) (s : State) :
  maxDim (calc_bounds p s) =
  clamp_if MAX_DIM_MIN MAX_DIM_MAX (s16 (u8 (Z.quot p 8) - MAX_DIM_MARGIN)).
Proof.
  unfold calc_bounds. fields. apply u8_small.
  pose proof (clamp_if_range MAX_DIM_MIN MAX_DIM_MAX
                (s16 (u8 (Z.quot p 8) - MAX_DIM_MARGIN))) as H.
  unfold MAX_DIM_MIN, MAX_DIM_MAX in *. lia.
Qed.

Lemma calc_bounds_minDim (p : Z) (s : State) :
  minDim (calc_bounds p s) =
  clamp_if MIN_DIM_MIN MIN_DIM_MAX
    (s16 (s16 (Z.quot (s16 (u8 (Z.quot p 8) * MIN_DIM_BASE)) 166) - 1)).
Proof.
  unfold calc_bounds. fields. apply u8_small.
  pose proof (clamp_if_range MIN_DIM_MIN MIN_DIM_MAX
     (s16 (s16 (Z.quot (s16 (u8 (Z.quot p 8) * MIN_DIM_BASE)) 166) - 1))) as H.
  unfold MIN_DIM_MIN, MIN_DIM_MAX in *. lia.
Qed.

Lemma calc_bounds_limits (p : Z) (s : State) :
  MIN_DIM_MIN <= minDim (calc_bounds p s) <= MIN_DIM_MAX /\
  MAX_DIM_MIN <= maxDim (calc_bounds p s) <= MAX_DIM_MAX.
Proof.
  rewrite calc_bounds_minDim, calc_bounds_maxDim.
  split; apply clamp_if_range; unfold MIN_DIM_MIN, MIN_DIM_MAX, MAX_DIM_MIN,
    MAX_DIM_MAX; lia.
Qed.

(** ** The invariant of normal-mode executions *)

Lemma setup_Inv (fuel : nat) (sync : bool) (edges : nat -> option Z)
      (portb : Z) (s : State) :
  setup fuel sync edges (power_on portb) = Some s -> Inv s.
Proof.
  unfold setup. destruct sync; [|discriminate].
  destruct (measure fuel edges 0 0 0) as [[p n]|]; [|discriminate].
  intros E. injection E as <-.
  match goal with |- Inv (set_calibMode false (calc_bounds p ?s0)) =>
    pose proof (calc_bounds_limits p s0) as [L1 L2] end.
  unfold Inv. repeat split; try (fields; tauto).
  left. split; [reflexivity|].
  unfold triac, calc_bounds. fields. apply (triac_setup_clear (power_on portb)).
Qed.

Lemma isr_minDim (p : Z) (s : State) : minDim (TIMER1_COMPA_vect p s) = minDim s.
Proof.
  destruct s. unfold TIMER1_COMPA_vect, phase, poll, port_toggle, port_set,
    port_clear, port_clear_mask. fields.
  repeat match goal with
         | |- context [if ?b then _ else _] => destruct b; fields
         end; reflexivity.
Qed.

Lemma isr_maxDim (p : Z) (s : State) : maxDim (TIMER1_COMPA_vect p s) = maxDim s.
Proof.
  destruct s. unfold TIMER1_COMPA_vect, phase, poll, port_toggle, port_set,
    port_clear, port_clear_mask. fields.
  repeat match goal with
         | |- context [if ?b then _ else _] => destruct b; fields
         end; reflexivity.
Qed.

Lemma isr_calibMode (p : Z) (s : State) :
  calibMode (TIMER1_COMPA_vect p s) = calibMode s.
Proof.
  destruct s. unfold TIMER1_COMPA_vect, phase, poll, port_toggle, port_set,
    port_clear, port_clear_mask. fields.
  repeat match goal with
         | |- context [if ?b then _ else _] => destruct b; fields
         end; reflexivity.
Qed.

Lemma isr_phase_inv (p : Z) (s : State) :
  calibMode s = false -> phase_inv s -> phase_inv (TIMER1_COMPA_vect p s).
Proof.
  intros Hc H. unfold phase_inv, ZC_OFFSET, SAFETY_TIMEOUT, TRIGGER_PULSE_WIDTH in *.
  destruct H as [[Hs Ht] | [[Hs [Hr Ht]] | [[Hs [Hr Ht]] | [Hs [Hr Ht]]]]].
  - destruct (accepts p s) eqn:Ha.
    + destruct (accepted_edge_state p s Hc Hs Ha) as [_ [B [C [_ [D _]]]]].
      right; left. rewrite B, C, D. repeat split; try assumption; lia.
    + rewrite isr_idle_reject by assumption. left. autorewrite with isr. auto.
  - destruct (Z.lt_ge_cases (counter s + 1) 8).
    + rewrite isr_offset_wait; try assumption; unfold ZC_OFFSET; try lia.
      right; left. fields. autorewrite with isr. repeat split; try assumption; lia.
    + rewrite isr_offset_done; try assumption; unfold ZC_OFFSET; try lia.
      right; right; left. fields. autorewrite with isr.
      repeat split; try assumption; lia.
  - destruct (Z.le_gt_cases (dimValue s) (counter s + 1)).
    + rewrite isr_delay_fire; try assumption; try lia.
      right; right; right. autorewrite with isr. unfold port_set. fields.
      autorewrite with isr. repeat split; lia.
    + destruct (Z.lt_ge_cases (counter s + 1) 210).
      * rewrite isr_delay_wait; try assumption; unfold SAFETY_TIMEOUT; try lia.
        right; right; left. fields. autorewrite with isr.
        repeat split; try assumption; lia.
      * rewrite isr_delay_timeout; try assumption; unfold SAFETY_TIMEOUT; try lia.
        left. autorewrite with isr. unfold port_clear, port_clear_mask. fields.
        autorewrite with isr. auto.
  - destruct (Z.lt_ge_cases (counter s + 1) 10).
    + rewrite isr_trigger_hold; try assumption; unfold TRIGGER_PULSE_WIDTH; try lia.
      right; right; right. fields. autorewrite with isr.
      repeat split; try assumption; lia.
    + rewrite isr_trigger_end; try assumption; unfold TRIGGER_PULSE_WIDTH; try lia.
      left. autorewrite with isr. unfold port_clear, port_clear_mask. fields.
      autorewrite with isr. auto.
Qed.

Lemma background_phase_inv (a : option Z) (s : State) :
  phase_inv s -> phase_inv (background a s).
Proof. unfold phase_inv. autorewrite with isr. tauto. Qed.

Lemma step_Inv (s : State) (i : TickIn) : Inv s -> Inv (step s i).
Proof.
  intros [Hc [Hmin [Hmax Hp]]]. unfold Inv, step.
  rewrite isr_calibMode, isr_minDim, isr_maxDim. autorewrite with isr.
  repeat split; try tauto.
  apply isr_phase_inv; autorewrite with isr; try assumption.
  apply background_phase_inv. assumption.
Qed.

Lemma reachable_Inv (s : State) : reachable s -> Inv s.
Proof.
  induction 1 as [fuel sync edges portb s E | s i _ IH].
  - eapply setup_Inv. eassumption.
  - apply step_Inv. assumption.
Qed.

Lemma run_Inv (ins : list TickIn) : forall s : State, Inv s -> Inv (run s ins).
Proof.
  induction ins as [|i ins IH]; intros s H; [assumption|].
  rewrite run_cons. apply IH, step_Inv, H.
Qed.

(** C2: from a reachable Idle state whose [dimValue] lies between the
    calibrated [minDim] and [maxDim], when the handler accepts a zero-cross
    edge and [dimValue] is not rewritten afterwards, the output is
    deasserted after each of the following ticks up to tick
    [ZC_OFFSET + dimValue - 1], and the handler asserts it (entering
    Trigger) on tick [ZC_OFFSET + dimValue] exactly. *)
Theorem trigger_onset (s : State) (p0 : Z) (pins : list Z) :
  reachable s -> state s = S_IDLE -> accepts p0 s = true ->
  minDim s <= dimValue s <= maxDim s ->
  length pins = Z.to_nat (ZC_OFFSET + dimValue s) ->
  let s0 := TIMER1_COMPA_vect p0 s in
  (forall k, (k < length pins)%nat ->
     triac (run s0 (quiet (firstn k pins))) = false) /\
  triac (run s0 (quiet pins)) = true /\
  state (run s0 (quiet pins)) = S_TRIGGER.
Proof.
  intros Hr Hs Ha Hd Hl s0.
  destruct (reachable_Inv s Hr) as [Hc [Hmin [Hmax Hp]]].
  assert (Ht : triac s = false).
  { unfold phase_inv in Hp. rewrite Hs in Hp. unfold S_IDLE, S_ZC_OFFSET,
      S_DELAY, S_TRIGGER in Hp.
    destruct Hp as [[_ T] | [[E _] | [[E _] | [E _]]]];
      [exact T | discriminate E ..]. }
  destruct (accepted_edge_state p0 s Hc Hs Ha) as [A [B [C [_ [D E]]]]].
  fold s0 in A, B, C, D, E. rewrite Ht in D.
  unfold MIN_DIM_MIN, MIN_DIM_MAX, MAX_DIM_MIN, MAX_DIM_MAX in *.
  assert (Hrange : 1 <= dimValue s <= SAFETY_TIMEOUT)
    by (unfold SAFETY_TIMEOUT; lia).
  pose proof (onset_prefix s0 pins (dimValue s) A B C D E Hrange) as P.
  unfold onset_shape, ZC_OFFSET in *. split.
  - intros k Hk. destruct (P k) as [_ [_ Q]]; try lia.
    destruct (Z.ltb_spec (Z.of_nat k) 8); [tauto|].
    destruct (Z.ltb_spec (Z.of_nat k) (8 + dimValue s)); [tauto | lia].
  - rewrite (run_quiet_all s0 pins (length pins) eq_refl).
    destruct (P (length pins)) as [_ [_ Q]]; try lia.
    destruct (Z.ltb_spec (Z.of_nat (length pins)) 8); [lia|].
    destruct (Z.ltb_spec (Z.of_nat (length pins)) (8 + dimValue s)); [lia | tauto].
Qed.

Lemma calibrated_reachable : reachable calibrated.
Proof. apply (reach_setup 9 true (fun _ => Some 166) 0). vm_compute. reflexivity. Qed.

Lemma dimmed_reachable : reachable dimmed.
Proof. unfold dimmed. apply reach_step. exact calibrated_reachable. Qed.

Lemma trigger_onset_at_88 :
  dimValue dimmed = 80 /\
  (forall k, (k < 88)%nat ->
     triac (run (TIMER1_COMPA_vect 4 dimmed) (quiet (firstn k (repeat 0 88)))) = false) /\
  triac (run (TIMER1_COMPA_vect 4 dimmed) (quiet (repeat 0 88))) = true /\
  state (run (TIMER1_COMPA_vect 4 dimmed) (quiet (repeat 0 88))) = S_TRIGGER.
Proof.
  split; [vm_compute; reflexivity|].
  apply (trigger_onset dimmed 4 (repeat 0 88)).
  - exact dimmed_reachable.
  - vm_compute; reflexivity.
  - vm_compute; reflexivity.
  - vm_compute. split; discriminate.
  - vm_compute; reflexivity.
Defined.

(** ** No stuck output *)

Lemma pulse_ends (s : State) (ins : list TickIn) :
  calibMode s = false -> state s = S_TRIGGER -> triac s = true ->
  0 <= counter s < TRIGGER_PULSE_WIDTH ->
  length ins = Z.to_nat (TRIGGER_PULSE_WIDTH - counter s) ->
  state (run s ins) = S_IDLE /\ triac (run s ins) = false.
Proof.
  intros Hc Hs Ht Hr Hl. unfold TRIGGER_PULSE_WIDTH in *.
  destruct (split_last _ ins (Z.to_nat (9 - counter s))) as [a [x [E [La _]]]];
    [lia|].
  destruct (trigger_hold_run a s) as [A [B [C D]]]; try assumption;
    unfold TRIGGER_PULSE_WIDTH; try lia.
  rewrite E, run_snoc.
  destruct (trigger_end_step (run s a) x) as [_ [P Q]]; auto.
  unfold TRIGGER_PULSE_WIDTH. lia.
Qed.

Lemma delay_leaves (m : nat) : forall (s : State) (ins : list TickIn),
  calibMode s = false -> state s = S_DELAY -> triac s = false ->
  0 <= counter s -> counter s + Z.of_nat m = SAFETY_TIMEOUT ->
  (1 <= m)%nat -> (m <= length ins)%nat ->
  exists k, (1 <= k <= m)%nat /\
    (forall j, (j < k)%nat ->
       state (run s (firstn j ins)) = S_DELAY /\
       triac (run s (firstn j ins)) = false) /\
    ((state (run s (firstn k ins)) = S_TRIGGER /\
      triac (run s (firstn k ins)) = true) \/
     (state (run s (firstn k ins)) = S_IDLE /\
      triac (run s (firstn k ins)) = false /\
      counter (run s (firstn k ins)) = SAFETY_TIMEOUT)).
Proof.
  unfold SAFETY_TIMEOUT.
  induction m as [|m IH]; intros s ins Hc Hs Ht H0 Hm H1 Hl; [lia|].
  destruct ins as [|i ins]; [simpl in Hl; lia|]. simpl in Hl.
  assert (First : forall j, (j < 1)%nat ->
            state (run s (firstn j (i :: ins))) = S_DELAY /\
            triac (run s (firstn j (i :: ins))) = false).
  { intros j Hj. replace j with 0%nat by lia. simpl. auto. }
  set (b := background (bg_adc i) s).
  assert (Hb : calibMode b = false /\ state b = S_DELAY /\ counter b = counter s
               /\ triac b = false).
  { unfold b. autorewrite with isr. auto. }
  destruct Hb as [Hcb [Hsb [Hcntb Htb]]].
  destruct (Z.le_gt_cases (dimValue b) (counter s + 1)) as [Hfire|Hno].
  - exists 1%nat. split; [lia|]. split; [exact First|]. left.
    change (run s (firstn 1 (i :: ins))) with (TIMER1_COMPA_vect (pinb_in i) b).
    rewrite isr_delay_fire; try assumption; try lia.
    autorewrite with isr. unfold port_set. fields. autorewrite with isr. auto.
  - destruct m as [|m].
    + exists 1%nat. split; [lia|]. split; [exact First|]. right.
      change (run s (firstn 1 (i :: ins))) with (TIMER1_COMPA_vect (pinb_in i) b).
      rewrite isr_delay_timeout; try assumption; unfold SAFETY_TIMEOUT; try lia.
      autorewrite with isr. unfold port_clear, port_clear_mask. fields.
      autorewrite with isr. repeat split. lia.
    + assert (E : step s i = set_counter (counter s + 1) (poll (pinb_in i) b)).
      { unfold step. fold b. rewrite isr_delay_wait; try assumption;
          unfold SAFETY_TIMEOUT; try lia. rewrite Hcntb. reflexivity. }
      destruct (IH (step s i) ins) as [k [Hk [Hpre Hexit]]];
        try (rewrite E; fields; autorewrite with isr; try assumption; lia);
        try lia.
      exists (S k). split; [lia|]. split.
      * intros [|j] Hj; [simpl; auto|].
        change (run s (firstn (S j) (i :: ins))) with (run (step s i) (firstn j ins)).
        apply Hpre. lia.
      * change (run s (firstn (S k) (i :: ins))) with (run (step s i) (firstn k ins)).
        exact Hexit.
Qed.

(** C1: in every reachable normal-mode state, whatever the sense input and
    the background loop do, (1) among any 11 consecutive tick boundaries the
    output is deasserted at one: it is never asserted for more than
    TRIGGER_PULSE_WIDTH ticks in a row; (2) a pending Delay phase, during
    which the output is deasserted, ends within SAFETY_TIMEOUT ticks, either
    by the trigger or by the timeout branch, which leaves the output
    deasserted and the state Idle. *)
Theorem output_never_stuck (s : State) :
  reachable s ->
  (forall ins, length ins = Z.to_nat TRIGGER_PULSE_WIDTH ->
     exists k, (k <= Z.to_nat TRIGGER_PULSE_WIDTH)%nat /\
               triac (run s (firstn k ins)) = false) /\
  (state s = S_DELAY ->
   forall ins, length ins = Z.to_nat SAFETY_TIMEOUT ->
     exists k, (1 <= k <= Z.to_nat SAFETY_TIMEOUT)%nat /\
       (forall j, (j < k)%nat ->
          state (run s (firstn j ins)) = S_DELAY /\
          triac (run s (firstn j ins)) = false) /\
       ((state (run s (firstn k ins)) = S_TRIGGER /\
         triac (run s (firstn k ins)) = true) \/
        (state (run s (firstn k ins)) = S_IDLE /\
         triac (run s (firstn k ins)) = false /\
         counter (run s (firstn k ins)) = SAFETY_TIMEOUT))).
Proof.
  intros Hr. destruct (reachable_Inv s Hr) as [Hc [_ [_ Hp]]]. split.
  - intros ins Hl. change (Z.to_nat TRIGGER_PULSE_WIDTH) with 10%nat in *.
    destruct (triac s) eqn:Ht; [|exists 0%nat; split; [lia | exact Ht]].
    destruct Hp as [[_ T] | [[_ [_ T]] | [[_ [_ T]] | [Hs [Hcnt _]]]]];
      try congruence.
    unfold TRIGGER_PULSE_WIDTH in Hcnt.
    exists (Z.to_nat (10 - counter s)). split; [lia|].
    apply (pulse_ends s); try assumption.
    rewrite length_firstn, Hl. unfold TRIGGER_PULSE_WIDTH. lia.
  - intros Hs ins Hl. change (Z.to_nat SAFETY_TIMEOUT) with 210%nat in *.
    assert (Hd : 0 <= counter s < SAFETY_TIMEOUT /\ triac s = false).
    { unfold phase_inv in Hp. rewrite Hs in Hp.
      unfold S_IDLE, S_ZC_OFFSET, S_DELAY, S_TRIGGER in Hp.
      destruct Hp as [[E _] | [[E _] | [[_ T] | [E _]]]];
        [discriminate E | discriminate E | exact T | discriminate E]. }
    destruct Hd as [Hcnt Ht]. unfold SAFETY_TIMEOUT in Hcnt.
    destruct (delay_leaves (Z.to_nat (210 - counter s)) s ins)
      as [k [Hk R]]; try assumption; unfold SAFETY_TIMEOUT; try lia.
    exists k. split; [lia | exact R].
Qed.

Lemma run_reachable (ins : list TickIn) : forall s : State,
  reachable s -> reachable (run s ins).
Proof.
  induction ins as [|i ins IH]; intros s H; [assumption|].
  rewrite run_cons. apply IH, reach_step, H.
Qed.

Lemma output_never_stuck_sample :
  (triac firing = true /\
   forall ins, length ins = 10%nat ->
     exists k, (k <= 10)%nat /\ triac (run firing (firstn k ins)) = false) /\
  (state delaying = S_DELAY /\
   forall ins, length ins = 210%nat ->
     exists k, (1 <= k <= 210)%nat /\
       (forall j, (j < k)%nat ->
          state (run delaying (firstn j ins)) = S_DELAY /\
          triac (run delaying (firstn j ins)) = false) /\
       ((state (run delaying (firstn k ins)) = S_TRIGGER /\
         triac (run delaying (firstn k ins)) = true) \/
        (state (run delaying (firstn k ins)) = S_IDLE /\
         triac (run delaying (firstn k ins)) = false /\
         counter (run delaying (firstn k ins)) = SAFETY_TIMEOUT))).
Proof.
  split; (split; [vm_compute; reflexivity|]).
  - apply (proj1 (output_never_stuck firing
                    (run_reachable _ dimmed dimmed_reachable))).
  - apply (proj2 (output_never_stuck delaying
                    (run_reachable _ dimmed dimmed_reachable))).
    vm_compute; reflexivity.
Defined.

(** Sample instances of the pulse-width and timeout theorems. *)
Lemma pulse_width_sample :
  (forall k, (k < 10)%nat ->
     state (run firing (firstn k (repeat (mkIn (Some 0) 4) 10))) = S_TRIGGER /\
     triac (run firing (firstn k (repeat (mkIn (Some 0) 4) 10))) = true) /\
  state (run firing (repeat (mkIn (Some 0) 4) 10)) = S_IDLE /\
  triac (run firing (repeat (mkIn (Some 0) 4) 10)) = false.
Proof.
  apply (pulse_width_exact firing (repeat (mkIn (Some 0) 4) 10));
    vm_compute; reflexivity.
Defined.

Lemma off_never_triggers_sample :
  dimValue switched_off = DIM_OFF /\
  (forall k, (k < 210)%nat ->
     state (run switched_off (quiet (firstn k (repeat 0 210)))) = S_DELAY /\
     triac (run switched_off (quiet (firstn k (repeat 0 210)))) = false) /\
  state (run switched_off (quiet (repeat 0 210))) = S_IDLE /\
  triac (run switched_off (quiet (repeat 0 210))) = false /\
  counter (run switched_off (quiet (repeat 0 210))) = SAFETY_TIMEOUT.
Proof.
  split; [vm_compute; reflexivity|].
  apply (off_never_triggers switched_off (repeat 0 210));
    vm_compute; reflexivity.
Defined.

(** C7: for a state value that is none of Idle, Offset, Delay and Trigger,
    one invocation of the normal-mode handler deasserts the output and sets
    the state to Idle. *)
Theorem unknown_state_recovers (p : Z) (s : State) :
  calibMode s = false ->
  state s <> S_IDLE -> state s <> S_ZC_OFFSET ->
  state s <> S_DELAY -> state s <> S_TRIGGER ->
  state (TIMER1_COMPA_vect p s) = S_IDLE /\
  triac (TIMER1_COMPA_vect p s) = false.
Proof.
  intros Hc H0 H1 H2 H3. rewrite isr_unknown by assumption.
  autorewrite with isr. split; reflexivity.
Qed.

Lemma unknown_state_recovers_sample :
  triac (set_state 7 firing) = true /\
  state (TIMER1_COMPA_vect 4 (set_state 7 firing)) = S_IDLE /\
  triac (TIMER1_COMPA_vect 4 (set_state 7 firing)) = false.
Proof.
  split; [vm_compute; reflexivity|].
  apply (unknown_state_recovers 4 (set_state 7 firing));
    vm_compute; congruence.
Defined.

(** ** Edges outside Idle *)

Lemma phase_ignores_rising (r r' : Z) (s : State) :
  state s <> S_IDLE -> phase r s = phase r' s.
Proof.
  intros H. unfold phase. apply Z.eqb_neq in H. rewrite H. reflexivity.
Qed.

Lemma poll_latch_only (p q : Z) (s : State) :
  poll p s = set_lastPin (curPin p) (poll q s).
Proof. unfold poll. fields. destruct (zcTimer s <? 255); reflexivity. Qed.

Lemma phase_set_lastPin (r v : Z) (s : State) :
  phase r (set_lastPin v s) = set_lastPin v (phase r s).
Proof.
  destruct s. unfold phase, port_toggle, port_set, port_clear, port_clear_mask.
  fields.
  repeat match goal with
         | |- context [if ?b then _ else _] => destruct b; fields
         end; reflexivity.
Qed.

Lemma phase_zcTimer_busy (r : Z) (s : State) :
  state s <> S_IDLE -> zcTimer (phase r s) = zcTimer s.
Proof.
  intros H. unfold phase. apply Z.eqb_neq in H. rewrite H.
  destruct s. unfold port_set, port_clear, port_clear_mask. fields.
  repeat match goal with
         | |- context [if ?b then _ else _] => destruct b; fields
         end; reflexivity.
Qed.

(** C10: on a tick taken in Offset, Delay or Trigger the handler does not
    accept an edge; the state it produces is the one it produces for any
    other pin sample [q] (one without a rising edge included) except for
    the previous-sample latch, which records the sample; and the debounce
    timer takes its saturating increment instead of being reset. *)
Theorem edges_ignored_outside_idle (p q : Z) (s : State) :
  calibMode s = false ->
  state s = S_ZC_OFFSET \/ state s = S_DELAY \/ state s = S_TRIGGER ->
  accepts p s = false /\
  TIMER1_COMPA_vect p s = set_lastPin (curPin p) (TIMER1_COMPA_vect q s) /\
  lastPin (TIMER1_COMPA_vect p s) = curPin p /\
  zcTimer (TIMER1_COMPA_vect p s) =
    (if zcTimer s <? 255 then u8 (zcTimer s + 1) else zcTimer s).
Proof.
  intros Hc Hs.
  assert (Hn : state s <> S_IDLE).
  { unfold S_IDLE, S_ZC_OFFSET, S_DELAY, S_TRIGGER in *.
    destruct Hs as [E | [E | E]]; rewrite E; discriminate. }
  assert (Hq : TIMER1_COMPA_vect p s = set_lastPin (curPin p) (TIMER1_COMPA_vect q s)).
  { unfold TIMER1_COMPA_vect. rewrite Hc.
    rewrite (poll_latch_only p q), phase_set_lastPin.
    f_equal. apply phase_ignores_rising. rewrite poll_state. exact Hn. }
  repeat split.
  - unfold accepts. apply Z.eqb_neq in Hn. rewrite Hn.
    rewrite andb_false_r. reflexivity.
  - exact Hq.
  - rewrite Hq. reflexivity.
  - unfold TIMER1_COMPA_vect. rewrite Hc.
    rewrite phase_zcTimer_busy by (rewrite poll_state; exact Hn).
    apply poll_zcTimer.
Qed.

Lemma edges_ignored_sample :
  rising_edge 4 delaying = 1 /\ rising_edge 0 delaying = 0 /\
  accepts 4 delaying = false /\
  TIMER1_COMPA_vect 4 delaying =
    set_lastPin (curPin 4) (TIMER1_COMPA_vect 0 delaying) /\
  lastPin (TIMER1_COMPA_vect 4 delaying) = curPin 4 /\
  zcTimer (TIMER1_COMPA_vect 4 delaying) =
    (if zcTimer delaying <? 255 then u8 (zcTimer delaying + 1)
     else zcTimer delaying).
Proof.
  split; [vm_compute; reflexivity|]. split; [vm_compute; reflexivity|].
  apply (edges_ignored_outside_idle 4 0 delaying).
  - vm_compute; reflexivity.
  - right; left. vm_compute; reflexivity.
Defined.

(** ** The minimum-period gate *)

Lemma isr_zcTimer_bound (p : Z) (s : State) :
  0 <= zcTimer s ->
  0 <= zcTimer (TIMER1_COMPA_vect p s) <= zcTimer s + 1.
Proof.
  intros H. destruct s as [st c d cm cc mn mx lp zt pb]. fields.
  unfold TIMER1_COMPA_vect, phase, poll, port_toggle, port_set, port_clear,
    port_clear_mask. fields.
  destruct cm; fields; [lia|].
  destruct (Z.ltb_spec zt 255); fields; rewrite ?u8_small by lia;
  repeat match goal with
         | |- context [if ?b then _ else _] => destruct b; fields
         end; lia.
Qed.

Lemma run_zcTimer_bound (ins : list TickIn) : forall s : State,
  0 <= zcTimer s ->
  0 <= zcTimer (run s ins) <= zcTimer s + Z.of_nat (length ins).
Proof.
  induction ins as [|i ins IH]; intros s H.
  - rewrite run_nil. simpl. lia.
  - rewrite run_cons. cbn [length].
    assert (B : 0 <= zcTimer (step s i) <= zcTimer s + 1).
    { unfold step.
      pose proof (isr_zcTimer_bound (pinb_in i) (background (bg_adc i) s)) as B.
      rewrite background_zcTimer in B. auto. }
    specialize (IH (step s i) (proj1 B)). lia.
Qed.

Lemma accepts_inv (p : Z) (s : State) :
  accepts p s = true ->
  calibMode s = false /\ state s = S_IDLE /\
  rising_edge p s <> 0 /\ MIN_ZC_PERIOD < zcTimer (poll p s).
Proof.
  unfold accepts, zc_accept. intros H.
  apply andb_true_iff in H. destruct H as [H H3].
  apply andb_true_iff in H. destruct H as [H1 H2].
  apply andb_true_iff in H3. destruct H3 as [H3 H4].
  apply negb_true_iff in H1, H3.
  apply Z.eqb_eq in H2. apply Z.eqb_neq in H3. apply Z.ltb_lt in H4.
  auto.
Qed.

(** [accepts] is exactly the handler's Idle-to-Offset transition. *)
Lemma accepts_iff_transition (p : Z) (s : State) :
  calibMode s = false ->
  (accepts p s = true <->
   state s = S_IDLE /\ state (TIMER1_COMPA_vect p s) = S_ZC_OFFSET).
Proof.
  intros Hc. split.
  - intros Ha. destruct (accepts_inv p s Ha) as [_ [Hs _]].
    destruct (accepted_edge_state p s Hc Hs Ha) as [_ [B _]]. auto.
  - intros [Hs Ht]. destruct (accepts p s) eqn:Ha; [reflexivity|].
    rewrite isr_idle_reject, poll_state, Hs in Ht by assumption.
    discriminate Ht.
Qed.

(** C6: the handler accepts an edge only on a rising sample with the
    already incremented debounce timer strictly above MIN_ZC_PERIOD, and
    acceptance resets the timer to 0; hence when a tick accepts an edge and
    a later tick of the same execution accepts one too, the number of ticks
    from the first to the second is at least MIN_ZC_PERIOD. *)
Theorem min_zc_spacing (s : State) (i : TickIn) (ins : list TickIn) (j : TickIn) :
  step_accepts s i = true ->
  step_accepts (run (step s i) ins) j = true ->
  rising_edge (pinb_in i) (background (bg_adc i) s) <> 0 /\
  MIN_ZC_PERIOD < zcTimer (poll (pinb_in i) (background (bg_adc i) s)) /\
  zcTimer (step s i) = 0 /\
  MIN_ZC_PERIOD <= Z.of_nat (length ins) + 1.
Proof.
  unfold step_accepts. intros Hi Hj.
  destruct (accepts_inv _ _ Hi) as [Hc [Hs [Hr Hz]]].
  destruct (accepted_edge_state _ _ Hc Hs Hi) as [_ [_ [_ [Z0 _]]]].
  fold (step s i) in Z0.
  repeat split; try assumption.
  destruct (accepts_inv _ _ Hj) as [_ [_ [_ Hz']]].
  rewrite poll_zcTimer, background_zcTimer in Hz'.
  pose proof (run_zcTimer_bound ins (step s i)) as B.
  rewrite Z0 in B. specialize (B (Z.le_refl 0)).
  destruct (Z.ltb_spec (zcTimer (run (step s i) ins)) 255).
  - rewrite u8_small in Hz' by lia. lia.
  - lia.
Qed.

Lemma min_zc_spacing_sample :
  rising_edge 4 dimmed <> 0 /\
  MIN_ZC_PERIOD < zcTimer (poll 4 dimmed) /\
  zcTimer (step dimmed (mkIn None 4)) = 0 /\
  MIN_ZC_PERIOD <= Z.of_nat (length (quiet (repeat 0 169))) + 1.
Proof.
  apply (min_zc_spacing dimmed (mkIn None 4) (quiet (repeat 0 169)) (mkIn None 4));
    vm_compute; reflexivity.
Defined.

(** ** The calibration measurement loop *)

Lemma in_window_range (t : Z) : in_window t = true <-> 140 <= t <= 220.
Proof.
  unfold in_window. rewrite andb_true_iff, Z.leb_le, Z.leb_le. tauto.
Qed.

Lemma sumZ_window (l : list Z) :
  Forall (fun t => in_window t = true) l ->
  140 * Z.of_nat (length l) <= sumZ l <= 220 * Z.of_nat (length l).
Proof.
  induction 1 as [|t l Ht _ IH]; simpl; [lia|].
  apply in_window_range in Ht. lia.
Qed.

Lemma accepted_in_window (edges : nat -> option Z) (i n : nat) :
  Forall (fun t => in_window t = true) (filter in_window (delivered edges i n)).
Proof. apply Forall_forall. intros t Ht. apply filter_In in Ht. tauto. Qed.

(** What the loop has done when it returns: it has consumed [m] delivered
    edges, of which the in-window ones complete the count to 8 and are the
    only ones added to the sum. *)
Lemma measure_sound (fuel : nat) :
  forall (edges : nat -> option Z) (i : nat) (sum k p : Z) (n : nat),
  0 <= k <= 8 -> 0 <= sum <= 220 * k ->
  measure fuel edges i sum k = Some (p, n) ->
  exists m : nat,
    n = (i + m)%nat /\ length (delivered edges i m) = m /\
    k + Z.of_nat (length (filter in_window (delivered edges i m))) = 8 /\
    p = sum + sumZ (filter in_window (delivered edges i m)).
Proof.
  induction fuel as [|fuel IH]; intros edges i sum k p n Hk Hsum H;
    [discriminate|].
  cbn [measure] in H. destruct (Z.ltb_spec k 8) as [Hlt|Hge].
  - destruct (edges i) as [t|] eqn:Et; [|discriminate].
    destruct (in_window t) eqn:Hw.
    + apply in_window_range in Hw.
      rewrite u16_small, u8_small in H by lia.
      apply IH in H; try lia.
      destruct H as [m [Hn [Hl [Hc Hp]]]].
      exists (S m). cbn [delivered]. rewrite Et. cbn [filter length].
      assert (Hw' : in_window t = true) by (apply in_window_range; lia).
      rewrite Hw'. cbn [length sumZ fold_right]. fold (sumZ (filter in_window
        (delivered edges (S i) m))).
      repeat split; try lia.
    + apply IH in H; try lia.
      destruct H as [m [Hn [Hl [Hc Hp]]]].
      exists (S m). cbn [delivered]. rewrite Et. cbn [filter length].
      rewrite Hw. repeat split; try lia.
  - injection H as <- <-. exists 0%nat. cbn. repeat split; lia.
Qed.

Lemma measure_complete (m : nat) :
  forall (edges : nat -> option Z) (i : nat) (sum k : Z),
  0 <= k <= 8 ->
  8 <= k + Z.of_nat (length (filter in_window (delivered edges i m))) ->
  exists fuel r, measure fuel edges i sum k = Some r.
Proof.
  induction m as [|m IH]; intros edges i sum k Hk H.
  - cbn in H. exists 1%nat, (sum, i). cbn [measure].
    destruct (Z.ltb_spec k 8); [lia | reflexivity].
  - destruct (Z.ltb_spec k 8) as [Hlt|Hge].
    + cbn [delivered] in H. destruct (edges i) as [t|] eqn:Et;
        [|cbn in H; lia].
      cbn [filter] in H. destruct (in_window t) eqn:Hw.
      * cbn [length] in H.
        destruct (IH edges (S i) (u16 (sum + t)) (k + 1)) as [fuel [r Hr]];
          try lia.
        exists (S fuel), r. cbn [measure].
        destruct (Z.ltb_spec k 8); [|lia]. rewrite Et, Hw.
        rewrite (u8_small (k + 1)) by lia. exact Hr.
      * destruct (IH edges (S i) sum k) as [fuel [r Hr]]; try lia.
        exists (S fuel), r. cbn [measure].
        destruct (Z.ltb_spec k 8); [|lia]. rewrite Et, Hw. exact Hr.
    + exists 1%nat, (sum, i). cbn [measure].
      destruct (Z.ltb_spec k 8); [lia | reflexivity].
Qed.

Lemma measure_result (fuel : nat) (edges : nat -> option Z) (p : Z) (n : nat) :
  measure fuel edges 0 0 0 = Some (p, n) ->
  length (delivered edges 0 n) = n /\
  length (accepted edges n) = 8%nat /\
  p = sumZ (accepted edges n).
Proof.
  intros H. apply measure_sound in H; try lia.
  destruct H as [m [Hn [Hl [Hc Hp]]]]. simpl in Hn. subst m.
  unfold accepted. repeat split; try assumption; lia.
Qed.

(** C8: the measurement loop returns if and only if the edge sequence
    delivers 8 readings inside the window [140, 220], and otherwise never
    returns whatever the number of iterations; when it returns after
    consuming [n] edges, exactly 8 of the [n] readings are in the window and
    the sum it has accumulated is the sum of those 8: the other readings
    were neither counted nor added. *)
Theorem measurement_loop (edges : nat -> option Z) :
  ((exists fuel r, measure fuel edges 0 0 0 = Some r) <->
   (exists n, (8 <= length (accepted edges n))%nat)) /\
  ((forall fuel, measure fuel edges 0 0 0 = None) <->
   (forall n, (length (accepted edges n) < 8)%nat)) /\
  (forall fuel p n, measure fuel edges 0 0 0 = Some (p, n) ->
     length (delivered edges 0 n) = n /\
     length (accepted edges n) = 8%nat /\
     Forall (fun t => 140 <= t <= 220) (accepted edges n) /\
     p = sumZ (accepted edges n)).
Proof.
  assert (Iff : (exists fuel r, measure fuel edges 0 0 0 = Some r) <->
                (exists n, (8 <= length (accepted edges n))%nat)).
  { split.
    - intros [fuel [[p n] H]]. exists n.
      apply measure_result in H. lia.
    - intros [n H]. apply (measure_complete n edges 0%nat 0 0); [lia|].
      unfold accepted in H. lia. }
  split; [exact Iff|]. split.
  - split.
    + intros Hnone n. destruct (Nat.lt_ge_cases (length (accepted edges n)) 8)
        as [L|G]; [exact L|].
      destruct (proj2 Iff (ex_intro _ n G)) as [fuel [r Hr]].
      rewrite Hnone in Hr. discriminate.
    + intros Hlt fuel. destruct (measure fuel edges 0 0 0) as [r|] eqn:E;
        [|reflexivity].
      destruct (proj1 Iff (ex_intro _ fuel (ex_intro _ r E))) as [n Hn].
      specialize (Hlt n). lia.
  - intros fuel p n H. destruct (measure_result fuel edges p n H) as [A [B C]].
    repeat split; try assumption.
    unfold accepted. eapply Forall_impl; [|apply accepted_in_window].
    intros t Ht. apply in_window_range. exact Ht.
Qed.

Lemma measurement_loop_sample :
  measure 20 noisy_edges 0 0 0 = Some (1328, 15%nat) /\
  accepted noisy_edges 15 = repeat 166 8 /\
  (forall fuel, measure fuel short_edges 0 0 0 = None) /\
  (forall fuel, measure fuel glitch_edges 0 0 0 = None).
Proof.
  split; [vm_compute; reflexivity|]. split; [vm_compute; reflexivity|]. split.
  - apply (proj2 (proj1 (proj2 (measurement_loop _)))).
    intros n. unfold accepted.
    assert (H : forall m i,
              (length (filter in_window (delivered short_edges i m)) <= 7 - i)%nat).
    { induction m as [|m IH]; intros i; cbn [delivered]; [simpl; lia|].
      unfold short_edges at 1. destruct (Nat.ltb_spec i 7); [|simpl; lia].
      cbn [filter]. change (in_window 166) with true. cbn [length].
      specialize (IH (S i)). lia. }
    specialize (H n 0%nat). lia.
  - apply (proj2 (proj1 (proj2 (measurement_loop _)))).
    intros n. unfold accepted.
    assert (H : forall m i, filter in_window (delivered glitch_edges i m) = []).
    { induction m as [|m IH]; intros i; [reflexivity|].
      cbn [delivered]. unfold glitch_edges at 1. cbn [filter]. change (in_window 30) with false. apply IH. }
    rewrite H. simpl. lia.
Defined.

(** ** The bounds derived from the measurement *)

Lemma calc_bounds_spec (p : Z) (s : State) :
  1120 <= p <= 1760 ->
  maxDim (calc_bounds p s) = clamp (p / 8 - MAX_DIM_MARGIN) MAX_DIM_MIN MAX_DIM_MAX /\
  minDim (calc_bounds p s) =
    clamp (p / 8 * MIN_DIM_BASE / 166 - 1) MIN_DIM_MIN MIN_DIM_MAX.
Proof.
  intros Hp. rewrite calc_bounds_maxDim, calc_bounds_minDim.
  rewrite Z.quot_div_nonneg by lia.
  assert (Ha : 140 <= p / 8 <= 220).
  { split; [apply Z.div_le_lower_bound | apply Z.div_le_upper_bound]; lia. }
  unfold MAX_DIM_MARGIN, MAX_DIM_MIN, MAX_DIM_MAX, MIN_DIM_BASE, MIN_DIM_MIN,
    MIN_DIM_MAX.
  rewrite (u8_small (p / 8)) by lia.
  rewrite (s16_small (p / 8 - 9)) by lia.
  rewrite (s16_small (p / 8 * 62)) by lia.
  rewrite Z.quot_div_nonneg by lia.
  assert (Hq : 0 <= p / 8 * 62 / 166 <= 13640).
  { split; [apply Z.div_pos | apply Z.div_le_upper_bound]; lia. }
  rewrite (s16_small (p / 8 * 62 / 166)) by lia.
  rewrite (s16_small (p / 8 * 62 / 166 - 1)) by lia.
  split; apply clamp_if_clamp; lia.
Qed.

(** C4: when [setup] completes, the bounds it has stored are the spec's
    clamps of the integer average of the 8 readings accepted by the
    measurement loop: maxDim = clamp(avg - 9, 156, 195) and
    minDim = clamp(avg * 62 / 166 - 1, 50, 80), all divisions being integer
    divisions; for 8 accepted readings of 166 ticks this is 157 and 61. *)
Theorem calibration_bounds (fuel : nat) (sync : bool) (edges : nat -> option Z)
        (s0 s : State) :
  setup fuel sync edges s0 = Some s ->
  exists n : nat,
    length (accepted edges n) = 8%nat /\
    maxDim s = clamp (sumZ (accepted edges n) / 8 - MAX_DIM_MARGIN)
                     MAX_DIM_MIN MAX_DIM_MAX /\
    minDim s = clamp (sumZ (accepted edges n) / 8 * MIN_DIM_BASE / 166 - 1)
                     MIN_DIM_MIN MIN_DIM_MAX /\
    (accepted edges n = repeat 166 8 -> maxDim s = 157 /\ minDim s = 61).
Proof.
  unfold setup. destruct sync; [|discriminate].
  destruct (measure fuel edges 0 0 0) as [[p n]|] eqn:E; [|discriminate].
  intros H. injection H as <-.
  destruct (measure_result fuel edges p n E) as [_ [L P]].
  exists n. split; [exact L|].
  pose proof (sumZ_window (accepted edges n) (accepted_in_window edges 0 n)) as B.
  rewrite L, <- P in B.
  match goal with |- context [calc_bounds p ?st] =>
    destruct (calc_bounds_spec p st) as [M1 M2]; [lia|];
    change (maxDim (set_calibMode false (calc_bounds p st)))
      with (maxDim (calc_bounds p st));
    change (minDim (set_calibMode false (calc_bounds p st)))
      with (minDim (calc_bounds p st))
  end.
  rewrite <- P. split; [exact M1|]. split; [exact M2|].
  intros R. rewrite M1, M2, P, R. vm_compute. split; reflexivity.
Qed.

Lemma calibration_bounds_sample :
  exists n : nat,
    length (accepted (fun _ => Some 166) n) = 8%nat /\
    maxDim calibrated =
      clamp (sumZ (accepted (fun _ => Some 166) n) / 8 - MAX_DIM_MARGIN)
            MAX_DIM_MIN MAX_DIM_MAX /\
    minDim calibrated =
      clamp (sumZ (accepted (fun _ => Some 166) n) / 8 * MIN_DIM_BASE / 166 - 1)
            MIN_DIM_MIN MIN_DIM_MAX /\
    (accepted (fun _ => Some 166) n = repeat 166 8 ->
     maxDim calibrated = 157 /\ minDim calibrated = 61).
Proof.
  apply (calibration_bounds 9 true (fun _ => Some 166) (power_on 0) calibrated).
  vm_compute. reflexivity.
Defined.

(** ** The dimming input mapper *)

Lemma potScaled_spec (adc : Z) :
  0 <= adc <= 1023 ->
  potScaled adc = (clamp adc ADC_MIN ADC_MAX - ADC_MIN) * 1023 / (ADC_MAX - ADC_MIN) /\
  0 <= potScaled adc <= 1023.
Proof.
  intros Ha. unfold potScaled, clamp, ADC_MIN, ADC_MAX.
  destruct (Z.leb_spec adc 61) as [H1|H1].
  - replace (Z.max 61 (Z.min adc 880)) with 61 by lia.
    split; [reflexivity | lia].
  - destruct (Z.leb_spec 880 adc) as [H2|H2].
    + replace (Z.max 61 (Z.min adc 880)) with 880 by lia.
      split; [reflexivity | lia].
    + replace (Z.max 61 (Z.min adc 880)) with adc by lia.
      rewrite (s16_small (adc - 61)) by lia.
      rewrite (s32_small (adc - 61)) by lia.
      rewrite (s32_small ((adc - 61) * 1023)) by lia.
      rewrite Z.quot_div_nonneg by lia.
      change (880 - 61) with 819.
      assert (Hq : 0 <= (adc - 61) * 1023 / 819 <= 1023).
      { split; [apply Z.div_pos | apply Z.div_le_upper_bound]; lia. }
      rewrite s32_small, s16_small by lia.
      split; [reflexivity | exact Hq].
Qed.

Lemma map_spec (x lo hi : Z) :
  0 <= x <= 1023 -> 0 <= lo <= hi -> hi < 256 ->
  map x 0 1023 lo hi = lo + x * (hi - lo) / 1023 /\
  lo <= map x 0 1023 lo hi <= hi.
Proof.
  intros Hx Hlo Hhi. unfold map.
  change (s32 (1023 - 0)) with 1023. rewrite Z.sub_0_r.
  rewrite (s32_small x), (s32_small (hi - lo)) by lia.
  assert (Hp : 0 <= x * (hi - lo) <= 1023 * 256) by nia.
  rewrite (s32_small (x * (hi - lo))) by lia.
  rewrite Z.quot_div_nonneg by lia.
  assert (Hq : 0 <= x * (hi - lo) / 1023 <= hi - lo).
  { split; [apply Z.div_pos | apply Z.div_le_upper_bound]; nia. }
  rewrite (s32_small (x * (hi - lo) / 1023)) by lia.
  rewrite s32_small by lia. lia.
Qed.

(** C9: in a reachable state (so with [minDim] and [maxDim] as left by
    calibration), for every 10-bit ADC reading: a reading of at least
    ADC_OFF makes the loop write DIM_OFF = 255, which is above
    SAFETY_TIMEOUT; any other reading is clamped to [ADC_MIN, ADC_MAX],
    scaled to 0..1023 and mapped linearly, and the value written lies
    between [minDim] and [maxDim]. *)
Theorem mapper_range (adc : Z) (s : State) :
  reachable s -> 0 <= adc <= 1023 ->
  SAFETY_TIMEOUT < DIM_OFF /\
  (ADC_OFF <= adc -> dimValue (loop adc s) = DIM_OFF) /\
  (adc < ADC_OFF ->
     potScaled adc =
       (clamp adc ADC_MIN ADC_MAX - ADC_MIN) * 1023 / (ADC_MAX - ADC_MIN) /\
     dimValue (loop adc s) =
       minDim s + potScaled adc * (maxDim s - minDim s) / 1023 /\
     minDim s <= dimValue (loop adc s) <= maxDim s).
Proof.
  intros Hr Ha. destruct (reachable_Inv s Hr) as [_ [Hmin [Hmax _]]].
  unfold MIN_DIM_MIN, MIN_DIM_MAX, MAX_DIM_MIN, MAX_DIM_MAX in *.
  split; [reflexivity|].
  unfold loop, tempDimValue. fields. split.
  - intros Hoff. destruct (Z.leb_spec ADC_OFF adc); [reflexivity | lia].
  - intros Hon. destruct (Z.leb_spec ADC_OFF adc); [lia|].
    destruct (potScaled_spec adc Ha) as [P1 P2].
    destruct (map_spec (potScaled adc) (minDim s) (maxDim s)) as [M1 M2];
      try lia.
    rewrite u8_small by lia. auto.
Qed.

Lemma mapper_range_sample :
  SAFETY_TIMEOUT < DIM_OFF /\
  (ADC_OFF <= 226 -> dimValue (loop 226 calibrated) = DIM_OFF) /\
  (226 < ADC_OFF ->
     potScaled 226 =
       (clamp 226 ADC_MIN ADC_MAX - ADC_MIN) * 1023 / (ADC_MAX - ADC_MIN) /\
     dimValue (loop 226 calibrated) =
       minDim calibrated + potScaled 226 * (maxDim calibrated - minDim calibrated) / 1023 /\
     minDim calibrated <= dimValue (loop 226 calibrated) <= maxDim calibrated).
Proof.
  apply (mapper_range 226 calibrated calibrated_reachable). lia.
Defined.

(** ** The tick counter of calibration mode *)

(** In calibration mode the handler only counts ticks, modulo 2^16: the
    reading taken by [setup] after [n] ticks is [u16 n]. *)
Lemma calib_ticks (pins : list Z) : forall s : State,
  calibMode s = true -> 0 <= calibCounter s < 65536 ->
  run s (quiet pins) =
  set_calibCounter (u16 (calibCounter s + Z.of_nat (length pins))) s.
Proof.
  induction pins as [|p pins IH]; intros s Hc Hr.
  - rewrite run_nil. simpl. rewrite Z.add_0_r, u16_small by assumption.
    destruct s; reflexivity.
  - cbn [quiet List.map]. rewrite run_cons.
    change (step s (mkIn None p)) with (TIMER1_COMPA_vect p s).
    rewrite isr_calib by assumption. fold (quiet pins).
    rewrite IH; fields; try assumption.
    + unfold set_calibCounter. fields. f_equal. unfold u16.
      rewrite Zplus_mod_idemp_l. f_equal. cbn [length]. lia.
    + unfold u16. apply Z.mod_pos_bound. lia.
Qed.

(** * Further properties of the firmware *)

(** ** What the handler leaves alone *)

Ltac isr_cases :=
  unfold TIMER1_COMPA_vect, phase, poll, port_toggle, port_set, port_clear,
    port_clear_mask; fields;
  repeat match goal with
         | |- context [if ?b then _ else _] => destruct b; fields
         end.

Lemma isr_dimValue (p : Z) (s : State) : dimValue (TIMER1_COMPA_vect p s) = dimValue s.
Proof. destruct s. isr_cases; reflexivity. Qed.

Lemma run_quiet_cons (s : State) (p : Z) (pins : list Z) :
  run s (quiet (p :: pins)) = run (TIMER1_COMPA_vect p s) (quiet pins).
Proof. reflexivity. Qed.

(** X1: the interrupt context treats the shared delay value as read-only:
    no invocation of the handler, in either mode and whatever the state
    value, changes [dimValue], so it is unchanged over any number of ticks
    during which the background loop does not write it. *)
Theorem handler_never_writes_dimValue (s : State) (pins : list Z) :
  dimValue (run s (quiet pins)) = dimValue s.
Proof.
  revert s. induction pins as [|p pins IH]; intros s; [reflexivity|].
  rewrite run_quiet_cons, IH. apply isr_dimValue.
Qed.

(** X2: the calibration result and the mode are set once: over every
    execution of ticks and loop iterations [minDim], [maxDim] and
    [calibMode] keep their values. *)
Theorem calibration_result_immutable (s : State) (ins : list TickIn) :
  minDim (run s ins) = minDim s /\ maxDim (run s ins) = maxDim s /\
  calibMode (run s ins) = calibMode s.
Proof.
  revert s. induction ins as [|i ins IH]; intros s; [auto|].
  rewrite run_cons. destruct (IH (step s i)) as [A [B C]].
  rewrite A, B, C. unfold step.
  rewrite isr_minDim, isr_maxDim, isr_calibMode. autorewrite with isr. auto.
Qed.

(** ** The port register *)

Lemma testbit_one_shifted (n i : Z) :
  0 <= n -> Z.testbit (Z.shiftl 1 n) i = (n =? i).
Proof. intros H. rewrite Z.shiftl_1_l. apply Z.pow2_bits_eqb. exact H. Qed.

Lemma port_set_bit (pin i : Z) (s : State) :
  0 <= pin -> 0 <= i < 8 ->
  Z.testbit (PORTB (port_set pin s)) i = Z.testbit (PORTB s) i || (pin =? i).
Proof.
  intros Hp Hi. unfold port_set. fields.
  rewrite testbit_u8_low, Z.lor_spec, testbit_one_shifted by lia. reflexivity.
Qed.

Lemma port_clear_bit (pin i : Z) (s : State) :
  0 <= pin -> 0 <= i < 8 ->
  Z.testbit (PORTB (port_clear pin s)) i = Z.testbit (PORTB s) i && negb (pin =? i).
Proof.
  intros Hp Hi. unfold port_clear, port_clear_mask. fields.
  rewrite testbit_u8_low, Z.land_spec, Z.lnot_spec, testbit_one_shifted by lia.
  reflexivity.
Qed.

Lemma port_toggle_bit (pin i : Z) (s : State) :
  0 <= pin -> 0 <= i < 8 ->
  Z.testbit (PORTB (port_toggle pin s)) i = xorb (Z.testbit (PORTB s) i) (pin =? i).
Proof.
  intros Hp Hi. unfold port_toggle. fields.
  rewrite testbit_u8_low, Z.lxor_spec, testbit_one_shifted by lia. reflexivity.
Qed.

Lemma isr_port_bit (p i : Z) (s : State) :
  0 <= i < 8 ->
  Z.testbit (PORTB (TIMER1_COMPA_vect p s)) i = Z.testbit (PORTB s) i \/
  i = TRIAC_PIN \/ (i = DEBUG_PIN /\ accepts p s = true).
Proof.
  intros Hi. unfold TRIAC_PIN, DEBUG_PIN.
  destruct (Z.eq_dec i 0) as [E0|N0]; [auto|].
  destruct (calibMode s) eqn:Hc.
  { left. rewrite isr_calib by assumption. reflexivity. }
  unfold TIMER1_COMPA_vect, accepts. rewrite Hc. unfold phase.
  rewrite poll_state. cbn [negb andb].
  assert (Hset : forall s', Z.testbit (PORTB (port_set TRIAC_PIN s')) i
                            = Z.testbit (PORTB s') i).
  { intros s'. rewrite port_set_bit by (unfold TRIAC_PIN; lia).
    unfold TRIAC_PIN. destruct (Z.eqb_spec 0 i); [lia|]. apply orb_false_r. }
  assert (Hclr : forall s', Z.testbit (PORTB (port_clear TRIAC_PIN s')) i
                            = Z.testbit (PORTB s') i).
  { intros s'. rewrite port_clear_bit by (unfold TRIAC_PIN; lia).
    unfold TRIAC_PIN. destruct (Z.eqb_spec 0 i); [lia|]. apply andb_true_r. }
  destruct (state s =? S_IDLE).
  - destruct (zc_accept (rising_edge p s) (zcTimer (poll p s))) eqn:Ha.
    + destruct (Z.eq_dec i 1) as [E1|N1]; [auto|]. left.
      rewrite port_toggle_bit by (unfold DEBUG_PIN; lia). unfold DEBUG_PIN.
      destruct (Z.eqb_spec 1 i); [lia|]. rewrite xorb_false_r.
      fields. apply f_equal2; [apply poll_PORTB | reflexivity].
    + left. rewrite poll_PORTB. reflexivity.
  - left.
    repeat match goal with
           | |- context [if ?b then _ else _] => destruct b
           end; fields;
    rewrite ?Hset, ?Hclr; fields; rewrite ?poll_PORTB; reflexivity.
Qed.

(** X3: the firmware never touches the port bits it does not own: over
    every execution, bits 2 to 7 of [PORTB] keep their values (the handler
    writes the triac bit and the LED bit only, the loop writes none). *)
Theorem foreign_port_bits_untouched (s : State) (ins : list TickIn) (i : Z) :
  2 <= i < 8 ->
  Z.testbit (PORTB (run s ins)) i = Z.testbit (PORTB s) i.
Proof.
  intros Hi. revert s. induction ins as [|x ins IH]; intros s; [reflexivity|].
  rewrite run_cons, IH. unfold step.
  destruct (isr_port_bit (pinb_in x) i (background (bg_adc x) s))
    as [E | [E | [E _]]]; unfold TRIAC_PIN, DEBUG_PIN in *; try lia.
  rewrite E. destruct (bg_adc x); reflexivity.
Qed.

Lemma foreign_port_bits_sample :
  Z.testbit (PORTB (run (set_PORTB 232 calibrated)
                        (mkIn (Some 226) 4 :: quiet (repeat 0 95)))) 5 = true.
Proof.
  rewrite (foreign_port_bits_untouched (set_PORTB 232 calibrated)
             (mkIn (Some 226) 4 :: quiet (repeat 0 95)) 5); [reflexivity | lia].
Defined.

(** ** The diagnostic LED *)

Lemma isr_debug_led (p : Z) (s : State) :
  debug_led (TIMER1_COMPA_vect p s) = xorb (debug_led s) (accepts p s).
Proof.
  unfold debug_led.
  destruct (calibMode s) eqn:Hc.
  { rewrite isr_calib by assumption. unfold accepts. rewrite Hc.
    cbn [negb andb]. rewrite xorb_false_r. reflexivity. }
  unfold TIMER1_COMPA_vect, accepts. rewrite Hc. unfold phase.
  rewrite poll_state. cbn [negb andb].
  assert (Hset : forall s', Z.testbit (PORTB (port_set TRIAC_PIN s')) DEBUG_PIN
                            = Z.testbit (PORTB s') DEBUG_PIN).
  { intros s'. rewrite port_set_bit by (unfold TRIAC_PIN, DEBUG_PIN; lia).
    apply orb_false_r. }
  assert (Hclr : forall s', Z.testbit (PORTB (port_clear TRIAC_PIN s')) DEBUG_PIN
                            = Z.testbit (PORTB s') DEBUG_PIN).
  { intros s'. rewrite port_clear_bit by (unfold TRIAC_PIN, DEBUG_PIN; lia).
    apply andb_true_r. }
  destruct (state s =? S_IDLE).
  - destruct (zc_accept (rising_edge p s) (zcTimer (poll p s))).
    + rewrite port_toggle_bit by (unfold DEBUG_PIN; lia).
      fields. rewrite poll_PORTB. reflexivity.
    + rewrite poll_PORTB, xorb_false_r. reflexivity.
  - rewrite xorb_false_r.
    repeat match goal with
           | |- context [if ?b then _ else _] => destruct b
           end; fields;
    rewrite ?Hset, ?Hclr; fields; rewrite ?poll_PORTB; reflexivity.
Qed.

(** X4: the LED changes state exactly once per accepted zero-cross edge and
    at no other time: after any execution it differs from its initial value
    if and only if the number of accepting ticks is odd. *)
Theorem debug_led_counts_edges (s : State) (ins : list TickIn) :
  debug_led (run s ins) = xorb (debug_led s) (Nat.odd (accept_count s ins)).
Proof.
  revert s. induction ins as [|i ins IH]; intros s.
  - simpl. rewrite xorb_false_r. reflexivity.
  - rewrite run_cons, IH. cbn [accept_count].
    assert (Hs : debug_led (step s i) = xorb (debug_led s) (step_accepts s i)).
    { unfold step, step_accepts. rewrite isr_debug_led.
      destruct (bg_adc i); reflexivity. }
    rewrite Hs, xorb_assoc. f_equal.
    destruct (step_accepts s i).
    + change (1 + accept_count (step s i) ins)%nat
        with (S (accept_count (step s i) ins)).
      rewrite Nat.odd_succ, <- Nat.negb_odd.
      destruct (Nat.odd (accept_count (step s i) ins)); reflexivity.
    + rewrite Nat.add_0_l.
      destruct (Nat.odd (accept_count (step s i) ins)); reflexivity.
Qed.

(** ** The tick counter of calibration mode wraps *)

(** X5: in calibration mode the handler does nothing but count ticks in a
    16-bit counter: [n] ticks after a reset the state differs from the
    initial one only in [calibCounter], which holds [n mod 65536]; hence two
    edge intervals that differ by 65536 ticks leave the same reading. *)
Theorem calibration_counter_wraps (s : State) (pins pins' : list Z) :
  calibMode s = true -> calibCounter s = 0 ->
  run s (quiet pins) = set_calibCounter (Z.of_nat (length pins) mod 65536) s /\
  (Z.of_nat (length pins') = Z.of_nat (length pins) + 65536 ->
   run s (quiet pins') = run s (quiet pins)).
Proof.
  intros Hc H0.
  assert (R : forall l, run s (quiet l)
                        = set_calibCounter (Z.of_nat (length l) mod 65536) s).
  { intros l. rewrite calib_ticks by (try assumption; lia).
    rewrite H0. reflexivity. }
  split; [apply R|].
  intros Hl. rewrite !R, Hl. f_equal.
  rewrite <- (Z.mul_1_l 65536) at 1. apply Z.mod_add. lia.
Qed.

Lemma calibration_counter_wraps_sample :
  run (power_on 0) (quiet (repeat 4 300)) =
    set_calibCounter (Z.of_nat (length (repeat 4 300)) mod 65536) (power_on 0) /\
  (Z.of_nat (length (repeat 0 (Z.to_nat 65836))) =
     Z.of_nat (length (repeat 4 300)) + 65536 ->
   run (power_on 0) (quiet (repeat 0 (Z.to_nat 65836))) =
   run (power_on 0) (quiet (repeat 4 300))).
Proof.
  apply (calibration_counter_wraps (power_on 0) (repeat 4 300)
           (repeat 0 (Z.to_nat 65836))); reflexivity.
Defined.

(** ** The edge detector *)

Lemma curPin_sense (p : Z) : curPin p = Z.b2z (sense p).
Proof.
  unfold curPin, sense, ZC_PIN.
  change 1 with (Z.ones 1) at 1. rewrite Z.land_ones by lia.
  change (2 ^ 1) with 2. rewrite <- Z.bit0_mod.
  rewrite Z.shiftr_spec by lia. change (0 + 2) with 2.
  destruct (Z.testbit p 2); reflexivity.
Qed.

Lemma rising_edge_value (p : Z) (s : State) :
  lastPin s = 0 \/ lastPin s = 1 ->
  rising_edge p s = Z.b2z (sense p && (lastPin s =? 0)).
Proof.
  intros H. unfold rising_edge. rewrite curPin_sense.
  destruct H as [E|E]; rewrite E; destruct (sense p); reflexivity.
Qed.

Lemma phase_lastPin (r : Z) (s : State) : lastPin (phase r s) = lastPin s.
Proof.
  destruct s. unfold phase, port_toggle, port_set, port_clear, port_clear_mask.
  fields.
  repeat match goal with
         | |- context [if ?b then _ else _] => destruct b; fields
         end; reflexivity.
Qed.

Lemma isr_lastPin (p : Z) (s : State) :
  calibMode s = false -> lastPin (TIMER1_COMPA_vect p s) = curPin p.
Proof.
  intros Hc. unfold TIMER1_COMPA_vect. rewrite Hc, phase_lastPin.
  apply poll_lastPin.
Qed.

Lemma sat_inc_min (z : Z) :
  0 <= z <= 255 ->
  (if z <? 255 then u8 (z + 1) else z) = Z.min (z + 1) 255.
Proof.
  intros H. destruct (Z.ltb_spec z 255); [rewrite u8_small by lia|]; lia.
Qed.

(** The timer counts the ticks since the last accepted edge, up to 255. *)
Lemma isr_zcTimer_value (p : Z) (s : State) :
  calibMode s = false -> 0 <= zcTimer s <= 255 ->
  zcTimer (TIMER1_COMPA_vect p s) =
  if accepts p s then 0 else Z.min (zcTimer s + 1) 255.
Proof.
  intros Hc Hz. destruct (accepts p s) eqn:Ha.
  - destruct (accepts_inv p s Ha) as [_ [Hs _]].
    destruct (accepted_edge_state p s Hc Hs Ha) as [_ [_ [_ [Z0 _]]]]. exact Z0.
  - rewrite <- sat_inc_min by assumption. rewrite <- poll_zcTimer with (p := p).
    destruct (Z.eq_dec (state s) S_IDLE) as [Hs|Hs].
    + rewrite isr_idle_reject by assumption. reflexivity.
    + unfold TIMER1_COMPA_vect. rewrite Hc.
      apply phase_zcTimer_busy. rewrite poll_state. exact Hs.
Qed.

Lemma setup_statics (fuel : nat) (sync : bool) (edges : nat -> option Z)
      (portb : Z) (s : State) :
  setup fuel sync edges (power_on portb) = Some s ->
  state s = S_IDLE /\ counter s = 0 /\ dimValue s = DIM_OFF /\
  lastPin s = 0 /\ zcTimer s = 255.
Proof.
  unfold setup. destruct sync; [|discriminate].
  destruct (measure fuel edges 0 0 0) as [[p n]|]; [|discriminate].
  intros E. injection E as <-. repeat split.
Qed.

Lemma step_statics (s : State) (i : TickIn) :
  calibMode s = false -> statics_ok s -> statics_ok (step s i).
Proof.
  intros Hc [Hl Hz]. unfold statics_ok, step. split.
  - rewrite isr_lastPin by (autorewrite with isr; assumption).
    rewrite curPin_sense. destruct (sense (pinb_in i)); auto.
  - rewrite isr_zcTimer_value; autorewrite with isr; try assumption.
    destruct (accepts (pinb_in i) (background (bg_adc i) s)); lia.
Qed.

Lemma reachable_statics (s : State) : reachable s -> statics_ok s.
Proof.
  induction 1 as [fuel sync edges portb s E | s i Hr IH].
  - destruct (setup_statics _ _ _ _ _ E) as [_ [_ [_ [L Zc]]]].
    unfold statics_ok. rewrite L, Zc. split; [auto | lia].
  - apply step_statics; [|exact IH].
    destruct (reachable_Inv s Hr) as [Hc _]. exact Hc.
Qed.

Lemma accepts_value (p : Z) (s : State) :
  calibMode s = false -> statics_ok s ->
  accepts p s =
  (state s =? S_IDLE) && sense p && (lastPin s =? 0) &&
  (MIN_ZC_PERIOD <=? zcTimer s).
Proof.
  intros Hc [Hl Hz].
  unfold accepts, zc_accept. rewrite Hc. cbn [negb andb].
  rewrite rising_edge_value by assumption.
  rewrite poll_zcTimer, sat_inc_min by assumption.
  unfold MIN_ZC_PERIOD.
  assert (G : (140 <? Z.min (zcTimer s + 1) 255) = (140 <=? zcTimer s)).
  { destruct (Z.ltb_spec 140 (Z.min (zcTimer s + 1) 255));
      destruct (Z.leb_spec 140 (zcTimer s)); try reflexivity; lia. }
  rewrite G.
  destruct (state s =? S_IDLE), (sense p), (lastPin s =? 0); reflexivity.
Qed.

(** X6: the exact condition under which the handler accepts a zero-cross
    edge in a reachable state: the state is Idle, the sense bit of this
    sample is high, the previous sample was low, and at least MIN_ZC_PERIOD
    ticks were counted before this one.  In particular a level that rose
    while the machine was busy is not an edge any more once it is Idle. *)
Theorem edge_acceptance_condition (p : Z) (s : State) :
  reachable s ->
  accepts p s =
  (state s =? S_IDLE) && sense p && (lastPin s =? 0) &&
  (MIN_ZC_PERIOD <=? zcTimer s).
Proof.
  intros Hr. apply accepts_value.
  - destruct (reachable_Inv s Hr) as [Hc _]. exact Hc.
  - apply reachable_statics. exact Hr.
Qed.

Lemma edge_acceptance_sample :
  accepts 4 dimmed = true /\ accepts 4 delaying = false /\
  accepts 4 (step firing (mkIn None 4)) = false.
Proof.
  split; [|split].
  - refine (eq_trans (edge_acceptance_condition 4 dimmed dimmed_reachable) _).
    vm_compute. reflexivity.
  - refine (eq_trans (edge_acceptance_condition 4 delaying
                        (run_reachable _ dimmed dimmed_reachable)) _).
    vm_compute. reflexivity.
  - refine (eq_trans (edge_acceptance_condition 4 (step firing (mkIn None 4))
                        (reach_step _ _ (run_reachable _ dimmed dimmed_reachable))) _).
    vm_compute. reflexivity.
Defined.

(** X7: what [setup] hands over to normal operation, for every edge
    sequence on which it completes: state Idle, output deasserted, delay
    value at the OFF sentinel, bounds inside their fixed limits (so
    [minDim < maxDim]), and a detector that accepts the very first high
    sample of the sense input. *)
Theorem setup_postcondition (fuel : nat) (sync : bool) (edges : nat -> option Z)
        (portb : Z) (s : State) :
  setup fuel sync edges (power_on portb) = Some s ->
  calibMode s = false /\ state s = S_IDLE /\ triac s = false /\
  dimValue s = DIM_OFF /\
  MIN_DIM_MIN <= minDim s <= MIN_DIM_MAX /\
  MAX_DIM_MIN <= maxDim s <= MAX_DIM_MAX /\ minDim s < maxDim s /\
  (forall p, accepts p s = sense p).
Proof.
  intros E. pose proof (reach_setup _ _ _ _ _ E) as Hr.
  destruct (reachable_Inv s Hr) as [Hc [Hmin [Hmax Hp]]].
  destruct (setup_statics _ _ _ _ _ E) as [Hs [_ [Hd [Hl Hz]]]].
  assert (Ht : triac s = false).
  { unfold phase_inv in Hp. rewrite Hs in Hp.
    unfold S_IDLE, S_ZC_OFFSET, S_DELAY, S_TRIGGER in Hp.
    destruct Hp as [[_ T] | [[X _] | [[X _] | [X _]]]];
      [exact T | discriminate X ..]. }
  unfold MIN_DIM_MIN, MIN_DIM_MAX, MAX_DIM_MIN, MAX_DIM_MAX in *.
  repeat split; try assumption; try lia.
  intros p. unfold accepts, zc_accept. rewrite Hc, Hs. cbn [negb andb].
  rewrite rising_edge_value by auto.
  rewrite poll_zcTimer, Hz, Hl.
  destruct (sense p); reflexivity.
Qed.

Lemma setup_postcondition_sample :
  calibMode calibrated = false /\ state calibrated = S_IDLE /\
  triac calibrated = false /\ dimValue calibrated = DIM_OFF /\
  MIN_DIM_MIN <= minDim calibrated <= MIN_DIM_MAX /\
  MAX_DIM_MIN <= maxDim calibrated <= MAX_DIM_MAX /\
  minDim calibrated < maxDim calibrated /\
  (forall p, accepts p calibrated = sense p).
Proof.
  apply (setup_postcondition 9 true (fun _ => Some 166) 0 calibrated).
  vm_compute. reflexivity.
Defined.

(** ** OFF means off *)

Lemma tempDimValue_off (a lo hi : Z) : ADC_OFF <= a -> tempDimValue a lo hi = DIM_OFF.
Proof.
  intros H. unfold tempDimValue. destruct (Z.leb_spec ADC_OFF a); [reflexivity | lia].
Qed.

Lemma isr_stays_off (p : Z) (s : State) :
  calibMode s = false -> phase_inv s -> triac s = false ->
  SAFETY_TIMEOUT < dimValue s ->
  triac (TIMER1_COMPA_vect p s) = false.
Proof.
  intros Hc Hp Ht Hd.
  unfold phase_inv, ZC_OFFSET, SAFETY_TIMEOUT, TRIGGER_PULSE_WIDTH in *.
  destruct Hp as [[Hs _] | [[Hs [Hr _]] | [[Hs [Hr _]] | [_ [_ T]]]]];
    [ | | | congruence].
  - destruct (accepts p s) eqn:Ha.
    + destruct (accepted_edge_state p s Hc Hs Ha) as [_ [_ [_ [_ [D _]]]]].
      rewrite D. exact Ht.
    + rewrite isr_idle_reject by assumption. autorewrite with isr. exact Ht.
  - destruct (Z.lt_ge_cases (counter s + 1) 8).
    + rewrite isr_offset_wait; try assumption; unfold ZC_OFFSET; try lia.
      autorewrite with isr. exact Ht.
    + rewrite isr_offset_done; try assumption; unfold ZC_OFFSET; try lia.
      autorewrite with isr. exact Ht.
  - destruct (Z.lt_ge_cases (counter s + 1) 210).
    + rewrite isr_delay_wait; try assumption; unfold SAFETY_TIMEOUT; try lia.
      autorewrite with isr. exact Ht.
    + rewrite isr_delay_timeout; try assumption; unfold SAFETY_TIMEOUT; try lia.
      autorewrite with isr. reflexivity.
Qed.

(** X8: OFF means off for as long as it lasts: from a reachable state with
    the output deasserted and [dimValue] above SAFETY_TIMEOUT, the output
    stays deasserted after every tick of every execution in which each loop
    iteration reads the control input at or above ADC_OFF, whatever the
    sense input does and for any number of half-cycles. *)
Theorem off_stays_off (s : State) (ins : list TickIn) :
  reachable s -> triac s = false -> SAFETY_TIMEOUT < dimValue s ->
  Forall input_off ins ->
  triac (run s ins) = false.
Proof.
  intros Hr Ht Hd Hin.
  pose proof (reachable_Inv s Hr) as HI. clear Hr.
  revert s HI Ht Hd. induction Hin as [|i ins Hi _ IH]; intros s HI Ht Hd;
    [exact Ht|].
  rewrite run_cons.
  assert (Hb : SAFETY_TIMEOUT < dimValue (background (bg_adc i) s)).
  { unfold input_off in Hi. destruct (bg_adc i) as [a|]; [|exact Hd].
    cbn [background]. unfold loop. fields. rewrite tempDimValue_off by assumption.
    reflexivity. }
  destruct HI as [Hc [Hmin [Hmax Hp]]].
  apply IH.
  - apply step_Inv. unfold Inv. auto.
  - unfold step. apply isr_stays_off; autorewrite with isr; try assumption.
    apply background_phase_inv. exact Hp.
  - unfold step. rewrite isr_dimValue. exact Hb.
Qed.

Lemma off_stays_off_sample :
  triac (run calibrated
           (mkIn (Some 1000) 4 :: quiet (repeat 0 100) ++
            quiet (repeat 4 150) ++ mkIn (Some 950) 0 :: quiet (repeat 4 30))) = false.
Proof.
  apply (off_stays_off calibrated).
  - exact calibrated_reachable.
  - vm_compute; reflexivity.
  - vm_compute; reflexivity.
  - repeat (apply Forall_cons || apply Forall_app || split);
      try apply Forall_forall; unfold input_off; try (cbn; unfold ADC_OFF; lia).
    all: intros x Hx; apply in_map_iff in Hx; destruct Hx as [? [<- _]]; exact I.
Defined.

(** ** A whole half-cycle *)

Lemma cycle_prefix (s0 : State) (pins : list Z) (d : Z) :
  calibMode s0 = false -> state s0 = S_ZC_OFFSET -> counter s0 = 0 ->
  zcTimer s0 = 0 -> triac s0 = false -> dimValue s0 = d ->
  1 <= d <= SAFETY_TIMEOUT ->
  forall k : nat, Z.of_nat k <= ZC_OFFSET + d + TRIGGER_PULSE_WIDTH ->
  (k <= length pins)%nat ->
  cycle_shape d k (run s0 (quiet (firstn k pins))).
Proof.
  intros Hc Hs H0 Hz Ht Hd Hr.
  unfold cycle_shape, ZC_OFFSET, SAFETY_TIMEOUT, TRIGGER_PULSE_WIDTH in *.
  induction k as [|k IH]; intros Hk Hl.
  - simpl. repeat split; assumption.
  - destruct IH as [A [B [Zk C]]]; try lia.
    rewrite run_quiet_succ by lia.
    set (s' := run s0 (quiet (firstn k pins))) in *.
    assert (Zs : forall v, zcTimer (set_counter v (poll (nth k pins 0) s'))
                           = Z.of_nat (S k)).
    { intros v. fields. rewrite poll_zcTimer, Zk.
      destruct (Z.ltb_spec (Z.of_nat k) 255); [|lia].
      rewrite u8_small by lia. lia. }
    destruct (Z.ltb_spec (Z.of_nat k) 8) as [K1|K1].
    { destruct C as [C1 [C2 C3]].
      destruct (Z.ltb_spec (Z.of_nat (S k)) 8) as [K2|K2].
      - rewrite isr_offset_wait; try assumption; unfold ZC_OFFSET; try lia.
        rewrite Zs. fields. autorewrite with isr.
        repeat split; try assumption. lia.
      - rewrite isr_offset_done; try assumption; unfold ZC_OFFSET; try lia.
        destruct (Z.ltb_spec (Z.of_nat (S k)) (8 + d)); try lia.
        fields. autorewrite with isr. rewrite (Zs 0).
        repeat split; try assumption. lia. }
    destruct (Z.ltb_spec (Z.of_nat (S k)) 8) as [K2|K2]; try lia.
    destruct (Z.ltb_spec (Z.of_nat k) (8 + d)) as [K3|K3].
    { destruct C as [C1 [C2 C3]].
      destruct (Z.ltb_spec (Z.of_nat (S k)) (8 + d)) as [K4|K4].
      - rewrite isr_delay_wait; try assumption; unfold SAFETY_TIMEOUT; try lia.
        rewrite Zs. fields. autorewrite with isr.
        repeat split; try assumption. lia.
      - rewrite isr_delay_fire; try assumption; try lia.
        destruct (Z.ltb_spec (Z.of_nat (S k)) (8 + d + 10)); try lia.
        autorewrite with isr. unfold port_set. fields. autorewrite with isr.
        rewrite (Zs 0). repeat split; try assumption. lia. }
    destruct (Z.ltb_spec (Z.of_nat (S k)) (8 + d)) as [K4|K4]; try lia.
    destruct (Z.ltb_spec (Z.of_nat k) (8 + d + 10)) as [K5|K5]; try lia.
    destruct C as [C1 [C2 C3]].
    destruct (Z.ltb_spec (Z.of_nat (S k)) (8 + d + 10)) as [K6|K6].
    + rewrite isr_trigger_hold; try assumption; unfold TRIGGER_PULSE_WIDTH;
        try lia.
      rewrite Zs. fields. autorewrite with isr.
      repeat split; try assumption. lia.
    + rewrite isr_trigger_end; try assumption; unfold TRIGGER_PULSE_WIDTH;
        try lia.
      autorewrite with isr. unfold port_clear, port_clear_mask. fields.
      autorewrite with isr. rewrite (Zs 0). repeat split; try assumption.
Qed.

Lemma after_accepted_edge (s : State) (p0 : Z) :
  reachable s -> state s = S_IDLE -> accepts p0 s = true ->
  minDim s <= dimValue s <= maxDim s ->
  let s0 := TIMER1_COMPA_vect p0 s in
  calibMode s0 = false /\ state s0 = S_ZC_OFFSET /\ counter s0 = 0 /\
  zcTimer s0 = 0 /\ triac s0 = false /\ dimValue s0 = dimValue s /\
  1 <= dimValue s <= SAFETY_TIMEOUT - 15.
Proof.
  intros Hr Hs Ha Hd s0.
  destruct (reachable_Inv s Hr) as [Hc [Hmin [Hmax Hp]]].
  assert (Ht : triac s = false).
  { unfold phase_inv in Hp. rewrite Hs in Hp.
    unfold S_IDLE, S_ZC_OFFSET, S_DELAY, S_TRIGGER in Hp.
    destruct Hp as [[_ T] | [[E _] | [[E _] | [E _]]]];
      [exact T | discriminate E ..]. }
  destruct (accepted_edge_state p0 s Hc Hs Ha) as [A [B [C [Z0 [D E]]]]].
  fold s0 in A, B, C, Z0, D, E. rewrite Ht in D.
  unfold MIN_DIM_MIN, MIN_DIM_MAX, MAX_DIM_MIN, MAX_DIM_MAX, SAFETY_TIMEOUT in *.
  repeat split; try assumption; lia.
Qed.

(** X9: a whole busy phase.  From a reachable Idle state with [dimValue]
    between the calibrated bounds, after an accepted edge and with
    [dimValue] not rewritten, whatever the sense input does meanwhile: the
    output is asserted after each of the ticks [8 + dimValue] to
    [8 + dimValue + 9], and tick [8 + dimValue + 10] leaves the machine Idle
    with the output deasserted and the debounce timer at
    [8 + dimValue + 10]. *)
Theorem half_cycle_completes (s : State) (p0 : Z) (pins : list Z) :
  reachable s -> state s = S_IDLE -> accepts p0 s = true ->
  minDim s <= dimValue s <= maxDim s ->
  length pins = Z.to_nat (ZC_OFFSET + dimValue s + TRIGGER_PULSE_WIDTH) ->
  let s0 := TIMER1_COMPA_vect p0 s in
  (forall k, ZC_OFFSET + dimValue s <= Z.of_nat k ->
     (k < length pins)%nat ->
     state (run s0 (quiet (firstn k pins))) = S_TRIGGER /\
     triac (run s0 (quiet (firstn k pins))) = true) /\
  state (run s0 (quiet pins)) = S_IDLE /\
  triac (run s0 (quiet pins)) = false /\
  zcTimer (run s0 (quiet pins)) = ZC_OFFSET + dimValue s + TRIGGER_PULSE_WIDTH.
Proof.
  intros Hr Hs Ha Hd Hl s0.
  destruct (after_accepted_edge s p0 Hr Hs Ha Hd) as [A [B [C [Z0 [D [E R]]]]]].
  fold s0 in A, B, C, Z0, D, E.
  assert (R' : 1 <= dimValue s <= SAFETY_TIMEOUT) by lia.
  pose proof (cycle_prefix s0 pins (dimValue s) A B C Z0 D E R') as P.
  unfold cycle_shape, ZC_OFFSET, TRIGGER_PULSE_WIDTH, SAFETY_TIMEOUT in *. split.
  - intros k Hk1 Hk2. destruct (P k) as [_ [_ [_ Q]]]; try lia.
    destruct (Z.ltb_spec (Z.of_nat k) 8); [lia|].
    destruct (Z.ltb_spec (Z.of_nat k) (8 + dimValue s)); [lia|].
    destruct (Z.ltb_spec (Z.of_nat k) (8 + dimValue s + 10)); [tauto | lia].
  - rewrite (run_quiet_all s0 pins (length pins) eq_refl).
    destruct (P (length pins)) as [_ [_ [Zk Q]]]; try lia.
    destruct (Z.ltb_spec (Z.of_nat (length pins)) 8); [lia|].
    destruct (Z.ltb_spec (Z.of_nat (length pins)) (8 + dimValue s)); [lia|].
    destruct (Z.ltb_spec (Z.of_nat (length pins)) (8 + dimValue s + 10)); [lia|].
    destruct Q as [Q1 Q2]. repeat split; try assumption. lia.
Qed.

Lemma half_cycle_sample :
  (forall k, ZC_OFFSET + dimValue dimmed <= Z.of_nat k ->
     (k < length (repeat 4 98))%nat ->
     state (run (TIMER1_COMPA_vect 4 dimmed) (quiet (firstn k (repeat 4 98))))
       = S_TRIGGER /\
     triac (run (TIMER1_COMPA_vect 4 dimmed) (quiet (firstn k (repeat 4 98))))
       = true) /\
  state (run (TIMER1_COMPA_vect 4 dimmed) (quiet (repeat 4 98))) = S_IDLE /\
  triac (run (TIMER1_COMPA_vect 4 dimmed) (quiet (repeat 4 98))) = false /\
  zcTimer (run (TIMER1_COMPA_vect 4 dimmed) (quiet (repeat 4 98))) =
    ZC_OFFSET + dimValue dimmed + TRIGGER_PULSE_WIDTH.
Proof.
  apply (half_cycle_completes dimmed 4 (repeat 4 98)).
  - exact dimmed_reachable.
  - vm_compute; reflexivity.
  - vm_compute; reflexivity.
  - vm_compute. split; discriminate.
  - vm_compute; reflexivity.
Defined.

(** ** Waiting in Idle *)

Lemma idle_low_tick (p : Z) (s : State) :
  calibMode s = false -> state s = S_IDLE -> statics_ok s -> sense p = false ->
  TIMER1_COMPA_vect p s = poll p s /\ lastPin (poll p s) = 0 /\
  zcTimer (poll p s) = Z.min (zcTimer s + 1) 255.
Proof.
  intros Hc Hs Hk Hp.
  assert (Ha : accepts p s = false).
  { rewrite accepts_value by assumption. rewrite Hp.
    rewrite andb_false_r. reflexivity. }
  split; [apply isr_idle_reject; assumption|]. split.
  - rewrite poll_lastPin, curPin_sense, Hp. reflexivity.
  - rewrite poll_zcTimer. apply sat_inc_min. apply Hk.
Qed.

Lemma idle_low_run (pins : list Z) : forall s : State,
  calibMode s = false -> state s = S_IDLE -> statics_ok s ->
  Forall (fun p => sense p = false) pins ->
  calibMode (run s (quiet pins)) = false /\
  state (run s (quiet pins)) = S_IDLE /\
  statics_ok (run s (quiet pins)) /\
  triac (run s (quiet pins)) = triac s /\
  zcTimer (run s (quiet pins)) = Z.min (zcTimer s + Z.of_nat (length pins)) 255 /\
  (pins <> [] -> lastPin (run s (quiet pins)) = 0).
Proof.
  induction pins as [|p pins IH]; intros s Hc Hs Hk Hlow.
  - rewrite run_nil. simpl. destruct Hk as [Hl Hz].
    repeat split; try assumption; try lia. congruence.
  - inversion Hlow as [|? ? Hp Hrest]; subst.
    rewrite run_quiet_cons.
    destruct (idle_low_tick p s Hc Hs Hk Hp) as [E [L Zp]]. rewrite E.
    assert (Hk' : statics_ok (poll p s)).
    { unfold statics_ok. rewrite L, Zp. destruct Hk as [_ Hz]. split; [auto | lia]. }
    destruct (IH (poll p s)) as [A [B [C [D [F G]]]]];
      autorewrite with isr; try assumption.
    repeat split; try assumption; try apply C.
    + rewrite D. autorewrite with isr. reflexivity.
    + rewrite F, Zp. cbn [length]. destruct Hk as [_ Hz]. lia.
    + intros _. destruct pins as [|q pins]; [exact L | apply G; discriminate].
Qed.

(** X10: how half-cycles chain.  After an accepted edge, the busy phase of
    [8 + dimValue + 10] ticks (any sense samples) and then [m >= 1] ticks
    with the sense input low, the handler accepts the next sample exactly
    when its sense bit is high and [8 + dimValue + 10 + m] has reached
    MIN_ZC_PERIOD: every later rising edge restarts the sequence, none is
    needed earlier to return to Idle. *)
Theorem next_edge_after_cycle (s : State) (p0 p1 : Z) (busy idle : list Z) :
  reachable s -> state s = S_IDLE -> accepts p0 s = true ->
  minDim s <= dimValue s <= maxDim s ->
  length busy = Z.to_nat (ZC_OFFSET + dimValue s + TRIGGER_PULSE_WIDTH) ->
  idle <> [] -> Forall (fun p => sense p = false) idle ->
  accepts p1 (run (TIMER1_COMPA_vect p0 s) (quiet (busy ++ idle))) =
  sense p1 &&
  (MIN_ZC_PERIOD <=?
   ZC_OFFSET + dimValue s + TRIGGER_PULSE_WIDTH + Z.of_nat (length idle)).
Proof.
  intros Hr Hs Ha Hd Hl Hne Hlow.
  destruct (after_accepted_edge s p0 Hr Hs Ha Hd) as [A [B [C [Z0 [D [E R]]]]]].
  set (s0 := TIMER1_COMPA_vect p0 s) in *.
  assert (R' : 1 <= dimValue s <= SAFETY_TIMEOUT) by lia.
  pose proof (cycle_prefix s0 busy (dimValue s) A B C Z0 D E R' (length busy)) as P.
  rewrite <- (run_quiet_all s0 busy (length busy) eq_refl) in P.
  unfold cycle_shape, ZC_OFFSET, TRIGGER_PULSE_WIDTH, SAFETY_TIMEOUT,
    MIN_ZC_PERIOD in *.
  destruct P as [Pc [_ [Pz Q]]]; try lia.
  destruct (Z.ltb_spec (Z.of_nat (length busy)) 8); [lia|].
  destruct (Z.ltb_spec (Z.of_nat (length busy)) (8 + dimValue s)); [lia|].
  destruct (Z.ltb_spec (Z.of_nat (length busy)) (8 + dimValue s + 10)); [lia|].
  destruct Q as [Qs Qt].
  assert (Hr1 : reachable (run s0 (quiet busy))).
  { apply run_reachable. apply (reach_step s (mkIn None p0)). exact Hr. }
  pose proof (reachable_statics _ Hr1) as Hk1.
  unfold quiet. rewrite map_app, run_app. fold (quiet busy) (quiet idle).
  destruct (idle_low_run idle (run s0 (quiet busy)) Pc Qs Hk1 Hlow)
    as [I1 [I2 [I3 [_ [I5 I6]]]]].
  rewrite accepts_value by assumption.
  rewrite I2, I5, (I6 Hne), Pz. unfold MIN_ZC_PERIOD.
  change (S_IDLE =? S_IDLE) with true. change (0 =? 0) with true.
  rewrite andb_true_r. cbn [andb]. f_equal.
  destruct (Z.leb_spec 140 (Z.min (Z.of_nat (length busy) + Z.of_nat (length idle)) 255));
    destruct (Z.leb_spec 140 (8 + dimValue s + 10 + Z.of_nat (length idle)));
    try reflexivity; lia.
Qed.

Lemma next_edge_sample :
  accepts 4 (run (TIMER1_COMPA_vect 4 dimmed)
                 (quiet (repeat 4 98 ++ repeat 0 67))) =
  sense 4 &&
  (MIN_ZC_PERIOD <=?
   ZC_OFFSET + dimValue dimmed + TRIGGER_PULSE_WIDTH +
   Z.of_nat (length (repeat 0 67))).
Proof.
  apply (next_edge_after_cycle dimmed 4 4 (repeat 4 98) (repeat 0 67)).
  - exact dimmed_reachable.
  - vm_compute; reflexivity.
  - vm_compute; reflexivity.
  - vm_compute. split; discriminate.
  - vm_compute; reflexivity.
  - discriminate.
  - apply Forall_forall. intros x Hx. apply repeat_spec in Hx. subst x.
    reflexivity.
Defined.

(** X11: edges are transitions, not levels: from a reachable state whose
    previous sample was high, for as long as the sense input stays high no
    tick accepts an edge, in any state and however long it lasts. *)
Theorem held_high_no_edges (s : State) (ins : list TickIn) :
  reachable s -> lastPin s = 1 ->
  Forall (fun i => sense (pinb_in i) = true) ins ->
  accept_count s ins = 0%nat.
Proof.
  intros Hr Hl Hin.
  assert (Hc : calibMode s = false) by (destruct (reachable_Inv s Hr); assumption).
  pose proof (reachable_statics s Hr) as Hk. clear Hr.
  revert s Hl Hc Hk. induction Hin as [|i ins Hi _ IH]; intros s Hl Hc Hk;
    [reflexivity|].
  cbn [accept_count].
  assert (Hb : calibMode (background (bg_adc i) s) = false /\
               statics_ok (background (bg_adc i) s) /\
               lastPin (background (bg_adc i) s) = 1).
  { destruct (bg_adc i); auto. }
  destruct Hb as [Hcb [Hkb Hlb]].
  unfold step_accepts. rewrite accepts_value by assumption.
  rewrite Hlb. change (1 =? 0) with false.
  rewrite andb_false_r, andb_false_l, Nat.add_0_l.
  apply IH.
  - unfold step. rewrite isr_lastPin by assumption.
    rewrite curPin_sense, Hi. reflexivity.
  - unfold step. rewrite isr_calibMode. exact Hcb.
  - apply step_statics; assumption.
Qed.

Lemma held_high_sample :
  accept_count (step firing (mkIn None 4))
    (mkIn (Some 226) 4 :: quiet (repeat 4 300)) = 0%nat.
Proof.
  apply (held_high_no_edges (step firing (mkIn None 4))).
  - apply reach_step, (run_reachable _ dimmed dimmed_reachable).
  - vm_compute; reflexivity.
  - apply Forall_cons; [reflexivity|]. apply Forall_forall. intros x Hx.
    apply in_map_iff in Hx. destruct Hx as [q [<- Hq]].
    apply repeat_spec in Hq. subst q. reflexivity.
Defined.

(** ** Shape of the input mapping *)

Lemma potScaled_mono (a b : Z) :
  0 <= a <= b -> b <= 1023 -> potScaled a <= potScaled b.
Proof.
  intros Ha Hb.
  destruct (potScaled_spec a) as [Ea _]; [lia|].
  destruct (potScaled_spec b) as [Eb _]; [lia|].
  rewrite Ea, Eb. unfold clamp, ADC_MIN, ADC_MAX.
  apply Z.div_le_mono; lia.
Qed.

Lemma loop_value (a : Z) (s : State) :
  reachable s -> 0 <= a <= 1023 -> a < ADC_OFF ->
  dimValue (loop a s) = minDim s + potScaled a * (maxDim s - minDim s) / 1023.
Proof.
  intros Hr Ha Hoff. destruct (reachable_Inv s Hr) as [_ [Hmin [Hmax _]]].
  unfold MIN_DIM_MIN, MIN_DIM_MAX, MAX_DIM_MIN, MAX_DIM_MAX in *.
  unfold loop, tempDimValue. fields.
  destruct (Z.leb_spec ADC_OFF a); [lia|].
  destruct (potScaled_spec a Ha) as [_ P2].
  destruct (map_spec (potScaled a) (minDim s) (maxDim s)) as [M1 M2]; try lia.
  rewrite u8_small by lia. exact M1.
Qed.

(** X12: the mapping from the control input to the delay is monotone over
    the whole ADC range (a higher input never gives a shorter delay, the OFF
    sentinel being the largest value), it reaches [minDim] for every reading
    up to ADC_MIN and [maxDim] for every reading from ADC_MAX up to the OFF
    threshold. *)
Theorem mapper_monotone (a b : Z) (s : State) :
  reachable s -> 0 <= a <= b -> b <= 1023 ->
  dimValue (loop a s) <= dimValue (loop b s) /\
  (a <= ADC_MIN -> dimValue (loop a s) = minDim s) /\
  (ADC_MAX <= a < ADC_OFF -> dimValue (loop a s) = maxDim s).
Proof.
  intros Hr Ha Hb. destruct (reachable_Inv s Hr) as [_ [Hmin [Hmax _]]].
  unfold MIN_DIM_MIN, MIN_DIM_MAX, MAX_DIM_MIN, MAX_DIM_MAX in *.
  assert (Hin : forall x, 0 <= x <= 1023 -> x < ADC_OFF ->
                  minDim s <= dimValue (loop x s) <= maxDim s).
  { intros x Hx Hoff. rewrite loop_value by assumption.
    destruct (potScaled_spec x Hx) as [_ P].
    assert (0 <= potScaled x * (maxDim s - minDim s) / 1023 <= maxDim s - minDim s).
    { split; [apply Z.div_pos | apply Z.div_le_upper_bound]; nia. }
    lia. }
  split; [|split].
  - destruct (Z.lt_ge_cases b ADC_OFF) as [Hlt|Hge].
    + rewrite !loop_value by (try assumption; lia).
      apply Z.add_le_mono_l, Z.div_le_mono; [lia|].
      apply Z.mul_le_mono_nonneg_r; [lia|]. apply potScaled_mono; lia.
    + assert (Eb : dimValue (loop b s) = DIM_OFF).
      { unfold loop. fields. apply tempDimValue_off. exact Hge. }
      rewrite Eb. unfold DIM_OFF.
      destruct (Z.lt_ge_cases a ADC_OFF) as [Hla|Hga].
      * specialize (Hin a). lia.
      * unfold loop. fields. rewrite tempDimValue_off by assumption.
        unfold DIM_OFF. lia.
  - intros Hlo. rewrite loop_value by (try assumption; unfold ADC_MIN, ADC_OFF in *; lia).
    unfold potScaled. destruct (Z.leb_spec a ADC_MIN); [|lia].
    rewrite Z.mul_0_l. change (0 / 1023) with 0. lia.
  - intros [Hhi Hoff]. rewrite loop_value by (try assumption; unfold ADC_MAX in *; lia).
    unfold potScaled. unfold ADC_MIN, ADC_MAX in *.
    destruct (Z.leb_spec a 61); [lia|]. destruct (Z.leb_spec 880 a); [|lia].
    rewrite Z.mul_comm, Z.div_mul by lia. lia.
Qed.

Lemma mapper_monotone_sample :
  dimValue (loop 300 calibrated) <= dimValue (loop 900 calibrated) /\
  (300 <= ADC_MIN -> dimValue (loop 300 calibrated) = minDim calibrated) /\
  (ADC_MAX <= 300 < ADC_OFF -> dimValue (loop 300 calibrated) = maxDim calibrated).
Proof.
  apply (mapper_monotone 300 900 calibrated calibrated_reachable); lia.
Defined.

(** ** More on the measurement loop *)

Lemma measure_minimal (fuel : nat) :
  forall (edges : nat -> option Z) (i : nat) (sum k p : Z) (n : nat),
  0 <= k <= 8 ->
  measure fuel edges i sum k = Some (p, n) ->
  forall m : nat, (i + m < n)%nat ->
    k + Z.of_nat (length (filter in_window (delivered edges i m))) < 8.
Proof.
  induction fuel as [|fuel IH]; intros edges i sum k p n Hk H m Hm;
    [discriminate|].
  cbn [measure] in H. destruct (Z.ltb_spec k 8) as [Hlt|Hge].
  - destruct (edges i) as [t|] eqn:Et; [|discriminate].
    destruct m as [|m]; [simpl; lia|].
    cbn [delivered]. rewrite Et. cbn [filter].
    destruct (in_window t) eqn:Hw.
    + rewrite u8_small in H by lia. cbn [length].
      pose proof (IH edges (S i) _ (k + 1) p n ltac:(lia) H m ltac:(lia)). lia.
    + apply (IH edges (S i) sum k p n Hk H m). lia.
  - injection H as <- <-. lia.
Qed.

(** X13: when the measurement loop returns after consuming [n] edges, it
    has stopped at the very edge that delivered the 8th in-window reading
    (no shorter prefix contains 8), it has consumed at least 8 edges, and
    the accumulated sum lies in [8 * 140, 8 * 220], so that the 16-bit sum
    has not wrapped and the average fits the 8-bit [avgPeriod]. *)
Theorem measure_stops_at_eighth (fuel : nat) (edges : nat -> option Z)
        (p : Z) (n : nat) :
  measure fuel edges 0 0 0 = Some (p, n) ->
  (forall n', (n' < n)%nat -> (length (accepted edges n') < 8)%nat) /\
  (8 <= n)%nat /\ 1120 <= p <= 1760 /\ 140 <= p / 8 <= 220.
Proof.
  intros H. destruct (measure_result fuel edges p n H) as [L [A P]].
  pose proof (sumZ_window (accepted edges n) (accepted_in_window edges 0 n)) as B.
  rewrite A, <- P in B.
  split; [|split; [|split]].
  - intros n' Hn'. unfold accepted.
    pose proof (measure_minimal fuel edges 0%nat 0 0 p n ltac:(lia) H n' Hn'). lia.
  - pose proof (filter_length_le in_window (delivered edges 0 n)) as F.
    unfold accepted in A. lia.
  - lia.
  - split; [apply Z.div_le_lower_bound | apply Z.div_le_upper_bound]; lia.
Qed.

Lemma measure_stops_sample :
  (forall n', (n' < 15)%nat -> (length (accepted noisy_edges n') < 8)%nat) /\
  (8 <= 15)%nat /\ 1120 <= 1328 <= 1760 /\ 140 <= 1328 / 8 <= 220.
Proof.
  apply (measure_stops_at_eighth 20 noisy_edges 1328 15).
  vm_compute. reflexivity.
Defined.

(** * The first earlier controller *)

Lemma plain_ticks_succ (n : nat) (s : PlainDimmer.State) :
  PlainDimmer.ticks (S n) s =
  PlainDimmer.TIMER1_COMPA_vect (PlainDimmer.ticks n s).
Proof. reflexivity. Qed.

Lemma plain_ticks_state (s : PlainDimmer.State) (n : nat) :
  0 <= PlainDimmer.dimValue s < 32767 ->
  PlainDimmer.ticks n (PlainDimmer.INT0_vect s) =
  if Z.of_nat n <=? PlainDimmer.dimValue s
  then PlainDimmer.mkState (Z.of_nat n) true (PlainDimmer.dimValue s)
         (PlainDimmer.potValue s) false
  else PlainDimmer.mkState 0 false (PlainDimmer.dimValue s)
         (PlainDimmer.potValue s) true.
Proof.
  intros Hd. induction n as [|n IH].
  - destruct (Z.leb_spec (Z.of_nat 0) (PlainDimmer.dimValue s)); [reflexivity | lia].
  - rewrite plain_ticks_succ, IH.
    destruct (Z.leb_spec (Z.of_nat n) (PlainDimmer.dimValue s)) as [H1|H1];
      destruct (Z.leb_spec (Z.of_nat (S n)) (PlainDimmer.dimValue s)) as [H2|H2];
      try lia; unfold PlainDimmer.TIMER1_COMPA_vect;
      cbn [PlainDimmer.zeroCrossDetected PlainDimmer.dimValue PlainDimmer.counter
           PlainDimmer.potValue PlainDimmer.triacOut].
    + destruct (Z.eqb_spec (PlainDimmer.dimValue s) 0); [lia|].
      destruct (Z.leb_spec (PlainDimmer.dimValue s) (Z.of_nat n)); [lia|].
      cbn [orb]. rewrite s16_small by lia. f_equal. lia.
    + destruct (Z.leb_spec (PlainDimmer.dimValue s) (Z.of_nat n)); [|lia].
      rewrite orb_true_r. reflexivity.
    + reflexivity.
Qed.

(** X14: in the first controller, after a zero-cross interrupt and with a
    delay value [d >= 0], the timer handler leaves the output low on the
    first [d] ticks and drives it high on tick [d + 1] ([d = 0] included: the
    first tick); from then on the output stays high on every further tick:
    this controller has no pulse end, only the next zero-cross interrupt
    lowers the output. *)
Theorem plain_fires_and_latches (s : PlainDimmer.State) (n : nat) :
  0 <= PlainDimmer.dimValue s < 32767 ->
  PlainDimmer.triacOut (PlainDimmer.ticks n (PlainDimmer.INT0_vect s)) =
    (PlainDimmer.dimValue s <? Z.of_nat n) /\
  PlainDimmer.zeroCrossDetected (PlainDimmer.ticks n (PlainDimmer.INT0_vect s)) =
    (Z.of_nat n <=? PlainDimmer.dimValue s) /\
  PlainDimmer.triacOut (PlainDimmer.INT0_vect
                          (PlainDimmer.ticks n (PlainDimmer.INT0_vect s))) = false.
Proof.
  intros Hd. rewrite plain_ticks_state by assumption.
  destruct (Z.leb_spec (Z.of_nat n) (PlainDimmer.dimValue s));
    destruct (Z.ltb_spec (PlainDimmer.dimValue s) (Z.of_nat n)); try lia;
    repeat split.
Qed.

Lemma plain_fires_sample :
  PlainDimmer.triacOut
    (PlainDimmer.ticks 50
       (PlainDimmer.INT0_vect (PlainDimmer.mkState 7 false 50 512 true))) = false /\
  PlainDimmer.triacOut
    (PlainDimmer.ticks 51
       (PlainDimmer.INT0_vect (PlainDimmer.mkState 7 false 50 512 true))) = true /\
  PlainDimmer.triacOut
    (PlainDimmer.ticks 400
       (PlainDimmer.INT0_vect (PlainDimmer.mkState 7 false 50 512 true))) = true.
Proof.
  split; [|split].
  - apply (proj1 (plain_fires_and_latches
                    (PlainDimmer.mkState 7 false 50 512 true) 50 ltac:(simpl; lia))).
  - apply (proj1 (plain_fires_and_latches
                    (PlainDimmer.mkState 7 false 50 512 true) 51 ltac:(simpl; lia))).
  - apply (proj1 (plain_fires_and_latches
                    (PlainDimmer.mkState 7 false 50 512 true) 400 ltac:(simpl; lia))).
Defined.

Lemma map_from_zero (x hi : Z) :
  0 <= x <= 1023 -> 0 <= hi < 256 ->
  map x 0 1023 0 hi = x * hi / 1023 /\ 0 <= x * hi / 1023 <= hi /\
  (x * hi / 1023 = hi <-> x = 1023 \/ hi = 0).
Proof.
  intros Hx Hh. destruct (map_spec x 0 hi) as [E R]; try lia.
  rewrite E, Z.sub_0_r, Z.add_0_l in *. split; [reflexivity|]. split; [lia|].
  split.
  - intros Heq. destruct (Z.eq_dec hi 0) as [|Hn]; [auto|]. left.
    destruct (Z.eq_dec x 1023) as [|Hx']; [assumption|].
    assert (x * hi / 1023 < hi) by (apply Z.div_lt_upper_bound; nia). lia.
  - intros [-> | ->]; [|rewrite Z.mul_0_r; reflexivity].
    rewrite Z.mul_comm. apply Z.div_mul. lia.
Qed.

(** X15: the first controller maps a 10-bit reading to a delay of
    [reading * 100 / 1023] ticks: always between 0 and 100, and 100 for the
    full-scale reading 1023 only. *)
Theorem plain_loop_range (adc : Z) (s : PlainDimmer.State) :
  0 <= adc <= 1023 ->
  PlainDimmer.dimValue (PlainDimmer.loop adc s) = adc * 100 / 1023 /\
  0 <= PlainDimmer.dimValue (PlainDimmer.loop adc s) <= 100 /\
  (PlainDimmer.dimValue (PlainDimmer.loop adc s) = 100 <-> adc = 1023).
Proof.
  intros Ha. destruct (map_from_zero adc 100) as [E [R I]]; try lia.
  unfold PlainDimmer.loop. cbn [PlainDimmer.dimValue].
  rewrite E, s16_small by lia. split; [reflexivity|]. split; [exact R|].
  rewrite I. split; [intros [H|H]; [exact H | discriminate H] | auto].
Qed.

Lemma plain_loop_sample :
  PlainDimmer.dimValue (PlainDimmer.loop 1022 (PlainDimmer.mkState 0 false 0 0 false))
    = 1022 * 100 / 1023 /\
  0 <= PlainDimmer.dimValue (PlainDimmer.loop 1022 (PlainDimmer.mkState 0 false 0 0 false))
    <= 100 /\
  (PlainDimmer.dimValue (PlainDimmer.loop 1022 (PlainDimmer.mkState 0 false 0 0 false))
     = 100 <-> 1022 = 1023).
Proof.
  apply (plain_loop_range 1022 (PlainDimmer.mkState 0 false 0 0 false)). lia.
Defined.

(** * The second earlier controller *)

Lemma bit0_cleared (x : Z) :
  Z.testbit (u8 (Z.land x (Z.lnot (Z.shiftl 1 0)))) 0 = false.
Proof.
  rewrite testbit_u8_low by lia. rewrite Z.land_spec.
  change (Z.testbit (Z.lnot (Z.shiftl 1 0)) 0) with false. apply andb_false_r.
Qed.

Lemma bit0_set (x : Z) : Z.testbit (u8 (Z.lor x (Z.shiftl 1 0))) 0 = true.
Proof.
  rewrite testbit_u8_low by lia. rewrite Z.lor_spec.
  change (Z.testbit (Z.shiftl 1 0) 0) with true. apply orb_true_r.
Qed.

Ltac pulse_fields :=
  cbn [PulseDimmer.counter PulseDimmer.zeroCrossDetected
       PulseDimmer.triacTriggered PulseDimmer.triggerPulseCounter
       PulseDimmer.lastZeroCrossTime PulseDimmer.potValue PulseDimmer.dimValue
       PulseDimmer.PORTB] in *.

Lemma pulse_ticks_succ (n : nat) (s : PulseDimmer.State) :
  PulseDimmer.ticks (S n) s =
  PulseDimmer.TIMER1_COMPA_vect (PulseDimmer.ticks n s).
Proof. reflexivity. Qed.

(** The three shapes of the state after an accepted zero-cross. *)
Lemma pulse_ticks_state (s0 : PulseDimmer.State) (n : nat) :
  PulseDimmer.zeroCrossDetected s0 = true ->
  PulseDimmer.triacTriggered s0 = false ->
  PulseDimmer.counter s0 = 0 -> PulseDimmer.triac s0 = false ->
  0 <= PulseDimmer.dimValue s0 < 32767 ->
  let s' := PulseDimmer.ticks n s0 in
  PulseDimmer.dimValue s' = PulseDimmer.dimValue s0 /\
  if Z.of_nat n <=? PulseDimmer.dimValue s0
  then PulseDimmer.zeroCrossDetected s' = true /\
       PulseDimmer.triacTriggered s' = false /\
       PulseDimmer.counter s' = Z.of_nat n /\ PulseDimmer.triac s' = false
  else if Z.of_nat n =? PulseDimmer.dimValue s0 + 1
  then PulseDimmer.zeroCrossDetected s' = true /\
       PulseDimmer.triacTriggered s' = true /\
       PulseDimmer.triggerPulseCounter s' = 0 /\ PulseDimmer.triac s' = true
  else PulseDimmer.zeroCrossDetected s' = false /\
       PulseDimmer.triacTriggered s' = false /\ PulseDimmer.triac s' = false.
Proof.
  intros Hf Ht Hc Hp Hd. induction n as [|n IH]; cbv zeta.
  - destruct (Z.leb_spec (Z.of_nat 0) (PulseDimmer.dimValue s0)); [|lia].
    simpl. auto.
  - cbv zeta in IH. destruct IH as [D IH]. rewrite pulse_ticks_succ.
    set (s' := PulseDimmer.ticks n s0) in *.
    unfold PulseDimmer.TIMER1_COMPA_vect, PulseDimmer.triac, PulseDimmer.triacPin in *.
    destruct (Z.leb_spec (Z.of_nat n) (PulseDimmer.dimValue s0)) as [H1|H1].
    + destruct IH as [A [B [C T]]]. rewrite A, B, C, D.
      destruct (Z.leb_spec (PulseDimmer.dimValue s0) (Z.of_nat n)) as [H2|H2].
      * destruct (Z.leb_spec (Z.of_nat (S n)) (PulseDimmer.dimValue s0)); [lia|].
        destruct (Z.eqb_spec (Z.of_nat (S n)) (PulseDimmer.dimValue s0 + 1)); [|lia].
        pulse_fields. rewrite bit0_set. auto.
      * destruct (Z.leb_spec (Z.of_nat (S n)) (PulseDimmer.dimValue s0)); [|lia].
        pulse_fields. rewrite s16_small by lia. repeat split; try assumption. lia.
    + destruct (Z.leb_spec (Z.of_nat (S n)) (PulseDimmer.dimValue s0)); [lia|].
      destruct (Z.eqb_spec (Z.of_nat (S n)) (PulseDimmer.dimValue s0 + 1)); [lia|].
      destruct (Z.eqb_spec (Z.of_nat n) (PulseDimmer.dimValue s0 + 1)).
      * destruct IH as [A [B [C T]]]. rewrite A, B, C.
        change (1 <=? s16 (0 + 1)) with true. cbv iota. pulse_fields.
        rewrite bit0_cleared. auto.
      * destruct IH as [A [B T]]. rewrite A. auto.
Qed.

(** X16: in the second controller, after an accepted zero-cross and with a
    delay value [d >= 0], the output is asserted after tick [d + 1] and after
    no other tick: the pulse is exactly one tick wide, and the zero-cross
    stays pending up to and including that tick. *)
Theorem pulse_is_one_tick (now : Z) (s : PulseDimmer.State) (n : nat) :
  PulseDimmer.zeroCrossDetected s = false ->
  2000 < PulseDimmer.u32 (now - PulseDimmer.lastZeroCrossTime s) ->
  0 <= PulseDimmer.dimValue s < 32767 ->
  PulseDimmer.triac (PulseDimmer.ticks n (PulseDimmer.INT0_vect now s)) =
    (Z.of_nat n =? PulseDimmer.dimValue s + 1) /\
  PulseDimmer.zeroCrossDetected (PulseDimmer.ticks n (PulseDimmer.INT0_vect now s)) =
    (Z.of_nat n <=? PulseDimmer.dimValue s + 1).
Proof.
  intros Hf He Hd.
  assert (E : PulseDimmer.INT0_vect now s =
              PulseDimmer.mkState 0 true false (PulseDimmer.triggerPulseCounter s)
                now (PulseDimmer.potValue s) (PulseDimmer.dimValue s)
                (u8 (Z.land (PulseDimmer.PORTB s)
                            (Z.lnot (Z.shiftl 1 PulseDimmer.triacPin))))).
  { unfold PulseDimmer.INT0_vect. rewrite Hf.
    destruct (Z.ltb_spec 2000 (PulseDimmer.u32 (now - PulseDimmer.lastZeroCrossTime s)));
      [reflexivity | lia]. }
  pose proof (pulse_ticks_state (PulseDimmer.INT0_vect now s) n) as P.
  rewrite E in *. cbv zeta in P. pulse_fields.
  destruct P as [_ P]; try reflexivity; try assumption.
  { apply bit0_cleared. }
  destruct (Z.leb_spec (Z.of_nat n) (PulseDimmer.dimValue s)) as [H1|H1].
  - destruct P as [A [_ [_ T]]]. rewrite A, T.
    destruct (Z.eqb_spec (Z.of_nat n) (PulseDimmer.dimValue s + 1)); [lia|].
    destruct (Z.leb_spec (Z.of_nat n) (PulseDimmer.dimValue s + 1)); [auto | lia].
  - destruct (Z.eqb_spec (Z.of_nat n) (PulseDimmer.dimValue s + 1)) as [H2|H2].
    + destruct P as [A [_ [_ T]]]. rewrite A, T.
      destruct (Z.leb_spec (Z.of_nat n) (PulseDimmer.dimValue s + 1)); [auto | lia].
    + destruct P as [A [_ T]]. rewrite A, T.
      destruct (Z.leb_spec (Z.of_nat n) (PulseDimmer.dimValue s + 1)); [lia | auto].
Qed.

Lemma pulse_is_one_tick_sample :
  PulseDimmer.triac
    (PulseDimmer.ticks 159 (PulseDimmer.INT0_vect 9000 (PulseDimmer.power_on 255)))
    = (Z.of_nat 159 =? PulseDimmer.dimValue (PulseDimmer.power_on 255) + 1) /\
  PulseDimmer.zeroCrossDetected
    (PulseDimmer.ticks 159 (PulseDimmer.INT0_vect 9000 (PulseDimmer.power_on 255)))
    = (Z.of_nat 159 <=? PulseDimmer.dimValue (PulseDimmer.power_on 255) + 1).
Proof.
  apply (pulse_is_one_tick 9000 (PulseDimmer.power_on 255) 159).
  - reflexivity.
  - vm_compute; reflexivity.
  - vm_compute. split; [discriminate | reflexivity].
Defined.

(** X17: the zero-cross interrupt of the second controller is ignored
    (state unchanged) while a zero-cross is pending, and otherwise accepted
    exactly when more than 2000 microseconds have elapsed since the last
    accepted one; the elapsed time is computed modulo 2^32, so the test is
    right across the wrap-around of the microsecond count. *)
Theorem pulse_zero_cross_debounce (e : Z) (s : PulseDimmer.State) :
  0 <= PulseDimmer.lastZeroCrossTime s < 4294967296 ->
  0 <= e < 4294967296 ->
  let now := PulseDimmer.u32 (PulseDimmer.lastZeroCrossTime s + e) in
  (PulseDimmer.zeroCrossDetected s = true \/ e <= 2000 ->
   PulseDimmer.INT0_vect now s = s) /\
  (PulseDimmer.zeroCrossDetected s = false -> 2000 < e ->
   let s' := PulseDimmer.INT0_vect now s in
   PulseDimmer.zeroCrossDetected s' = true /\
   PulseDimmer.lastZeroCrossTime s' = now /\
   PulseDimmer.counter s' = 0 /\ PulseDimmer.triac s' = false /\
   PulseDimmer.dimValue s' = PulseDimmer.dimValue s).
Proof.
  intros Hl He now.
  assert (El : PulseDimmer.u32 (now - PulseDimmer.lastZeroCrossTime s) = e).
  { unfold now, PulseDimmer.u32. rewrite Zminus_mod_idemp_l.
    replace (PulseDimmer.lastZeroCrossTime s + e - PulseDimmer.lastZeroCrossTime s)
      with e by lia.
    apply Z.mod_small. exact He. }
  unfold PulseDimmer.INT0_vect. rewrite El. split.
  - intros [Hp | Hs].
    + rewrite Hp. reflexivity.
    + destruct (Z.ltb_spec 2000 e); [lia|]. rewrite andb_false_r. reflexivity.
  - intros Hf Hg. rewrite Hf. destruct (Z.ltb_spec 2000 e); [|lia].
    cbv zeta. cbn [negb andb]. unfold PulseDimmer.triac, PulseDimmer.triacPin.
    pulse_fields. rewrite bit0_cleared. auto.
Qed.

Lemma pulse_debounce_sample :
  (PulseDimmer.zeroCrossDetected
     (PulseDimmer.mkState 0 false false 0 4294967000 0 100 0) = true \/
   8333 <= 2000 ->
   PulseDimmer.INT0_vect (PulseDimmer.u32 (4294967000 + 8333))
     (PulseDimmer.mkState 0 false false 0 4294967000 0 100 0) =
   PulseDimmer.mkState 0 false false 0 4294967000 0 100 0) /\
  (PulseDimmer.zeroCrossDetected
     (PulseDimmer.mkState 0 false false 0 4294967000 0 100 0) = false ->
   2000 < 8333 ->
   let s' := PulseDimmer.INT0_vect (PulseDimmer.u32 (4294967000 + 8333))
               (PulseDimmer.mkState 0 false false 0 4294967000 0 100 0) in
   PulseDimmer.zeroCrossDetected s' = true /\
   PulseDimmer.lastZeroCrossTime s' = PulseDimmer.u32 (4294967000 + 8333) /\
   PulseDimmer.counter s' = 0 /\ PulseDimmer.triac s' = false /\
   PulseDimmer.dimValue s' = 100).
Proof.
  apply (pulse_zero_cross_debounce 8333
           (PulseDimmer.mkState 0 false false 0 4294967000 0 100 0));
    simpl; lia.
Defined.

(** ** The gate pulse cannot be stretched *)

Lemma pulse_exec_inv (s : PulseDimmer.State) (ev : PulseDimmer.event) :
  PulseDimmer.pulse_inv s -> PulseDimmer.pulse_inv (PulseDimmer.exec s ev).
Proof.
  unfold PulseDimmer.pulse_inv, PulseDimmer.triac, PulseDimmer.triacPin.
  intros H. destruct ev as [|now|adc]; cbn [PulseDimmer.exec].
  - unfold PulseDimmer.TIMER1_COMPA_vect.
    destruct (PulseDimmer.zeroCrossDetected s) eqn:Hf;
      [|intros T; destruct (H T) as [X _]; discriminate X].
    destruct (PulseDimmer.triacTriggered s) eqn:Ht.
    + destruct (1 <=? s16 (PulseDimmer.triggerPulseCounter s + 1)) eqn:Hc;
        pulse_fields.
      * rewrite bit0_cleared. discriminate.
      * intros T. destruct (H T) as [_ [_ C]]. rewrite C in Hc. discriminate Hc.
    + destruct (PulseDimmer.dimValue s <=? PulseDimmer.counter s); pulse_fields.
      * auto.
      * intros T. destruct (H T) as [_ [X _]]. discriminate X.
  - unfold PulseDimmer.INT0_vect.
    destruct (negb (PulseDimmer.zeroCrossDetected s) &&
              (2000 <? PulseDimmer.u32 (now - PulseDimmer.lastZeroCrossTime s)));
      [|exact H].
    pulse_fields. rewrite bit0_cleared. discriminate.
  - exact H.
Qed.

Lemma pulse_run_inv (es : list PulseDimmer.event) : forall s : PulseDimmer.State,
  PulseDimmer.pulse_inv s -> PulseDimmer.pulse_inv (PulseDimmer.run s es).
Proof.
  induction es as [|ev es IH]; intros s H; [exact H|].
  apply (IH (PulseDimmer.exec s ev)), pulse_exec_inv, H.
Qed.

(** X18: in the second controller the output is never asserted across two
    timer ticks.  In every state reached from power-on by any interleaving
    of timer ticks, zero-cross interrupts and loop iterations, if the output
    is asserted then zero-cross interrupts and loop iterations leave the
    state, respectively the output, as it is, and the next timer tick
    deasserts the output. *)
Theorem pulse_never_stretched (portb : Z) (es : list PulseDimmer.event) :
  let s := PulseDimmer.run (PulseDimmer.power_on portb) es in
  PulseDimmer.triac s = true ->
  (forall now, PulseDimmer.INT0_vect now s = s) /\
  (forall adc, PulseDimmer.triac (PulseDimmer.loop adc s) = true) /\
  PulseDimmer.triac (PulseDimmer.TIMER1_COMPA_vect s) = false.
Proof.
  intros s T.
  assert (I : PulseDimmer.pulse_inv s).
  { apply pulse_run_inv. unfold PulseDimmer.pulse_inv, PulseDimmer.triac,
      PulseDimmer.power_on, PulseDimmer.triacPin. pulse_fields.
    rewrite bit0_cleared. discriminate. }
  destruct (I T) as [A [B C]]. split; [|split].
  - intros now. unfold PulseDimmer.INT0_vect. rewrite A. reflexivity.
  - intros adc. exact T.
  - unfold PulseDimmer.TIMER1_COMPA_vect. rewrite A, B, C.
    change (1 <=? s16 (0 + 1)) with true. cbv iota.
    unfold PulseDimmer.triac, PulseDimmer.triacPin. pulse_fields.
    apply bit0_cleared.
Qed.

Lemma pulse_never_stretched_sample :
  (forall now,
     PulseDimmer.INT0_vect now
       (PulseDimmer.run (PulseDimmer.power_on 255)
          (PulseDimmer.ZeroCross 9000 :: PulseDimmer.Loop 300 ::
           repeat PulseDimmer.Tick 47)) =
     PulseDimmer.run (PulseDimmer.power_on 255)
       (PulseDimmer.ZeroCross 9000 :: PulseDimmer.Loop 300 ::
        repeat PulseDimmer.Tick 47)) /\
  (forall adc,
     PulseDimmer.triac
       (PulseDimmer.loop adc
          (PulseDimmer.run (PulseDimmer.power_on 255)
             (PulseDimmer.ZeroCross 9000 :: PulseDimmer.Loop 300 ::
              repeat PulseDimmer.Tick 47))) = true) /\
  PulseDimmer.triac
    (PulseDimmer.TIMER1_COMPA_vect
       (PulseDimmer.run (PulseDimmer.power_on 255)
          (PulseDimmer.ZeroCross 9000 :: PulseDimmer.Loop 300 ::
           repeat PulseDimmer.Tick 47))) = false.
Proof.
  apply (pulse_never_stretched 255
           (PulseDimmer.ZeroCross 9000 :: PulseDimmer.Loop 300 ::
            repeat PulseDimmer.Tick 47)).
  vm_compute. reflexivity.
Defined.

(** X19: the second controller maps a 10-bit reading to a delay of
    [reading * 158 / 1023] ticks, always between MIN_DIM = 0 and
    MAX_DIM = 158, and MAX_DIM for the full-scale reading only. *)
Theorem pulse_loop_range (adc : Z) (s : PulseDimmer.State) :
  0 <= adc <= 1023 ->
  PulseDimmer.dimValue (PulseDimmer.loop adc s) = adc * 158 / 1023 /\
  PulseDimmer.MIN_DIM <= PulseDimmer.dimValue (PulseDimmer.loop adc s)
    <= PulseDimmer.MAX_DIM /\
  (PulseDimmer.dimValue (PulseDimmer.loop adc s) = PulseDimmer.MAX_DIM <->
   adc = 1023).
Proof.
  intros Ha. destruct (map_from_zero adc 158) as [E [R I]]; try lia.
  unfold PulseDimmer.loop, PulseDimmer.MIN_DIM, PulseDimmer.MAX_DIM.
  cbn [PulseDimmer.dimValue].
  rewrite E, s16_small by lia. split; [reflexivity|]. split; [exact R|].
  rewrite I. split; [intros [H|H]; [exact H | discriminate H] | auto].
Qed.

Lemma pulse_loop_sample :
  PulseDimmer.dimValue (PulseDimmer.loop 300 (PulseDimmer.power_on 0))
    = 300 * 158 / 1023 /\
  PulseDimmer.MIN_DIM <= PulseDimmer.dimValue (PulseDimmer.loop 300 (PulseDimmer.power_on 0))
    <= PulseDimmer.MAX_DIM /\
  (PulseDimmer.dimValue (PulseDimmer.loop 300 (PulseDimmer.power_on 0))
     = PulseDimmer.MAX_DIM <-> 300 = 1023).
Proof.
  apply (pulse_loop_range 300 (PulseDimmer.power_on 0)). lia.
Defined.

(** * Progress of the main state machine *)

Lemma remaining_offset (s : State) :
  state s = S_ZC_OFFSET -> remaining s = 8 - counter s + 220.
Proof.
  intros H. unfold remaining. rewrite H.
  unfold S_IDLE, S_ZC_OFFSET, S_DELAY, S_TRIGGER, ZC_OFFSET, SAFETY_TIMEOUT,
    TRIGGER_PULSE_WIDTH.
  cbn [Z.eqb Pos.eqb]. lia.
Qed.

Lemma remaining_delay (s : State) :
  state s = S_DELAY -> remaining s = 210 - counter s + 10.
Proof.
  intros H. unfold remaining. rewrite H.
  unfold S_IDLE, S_ZC_OFFSET, S_DELAY, S_TRIGGER, ZC_OFFSET, SAFETY_TIMEOUT,
    TRIGGER_PULSE_WIDTH.
  cbn [Z.eqb Pos.eqb]. lia.
Qed.

Lemma remaining_trigger (s : State) :
  state s = S_TRIGGER -> remaining s = 10 - counter s.
Proof.
  intros H. unfold remaining. rewrite H.
  unfold S_IDLE, S_ZC_OFFSET, S_DELAY, S_TRIGGER, ZC_OFFSET, SAFETY_TIMEOUT,
    TRIGGER_PULSE_WIDTH.
  cbn [Z.eqb Pos.eqb]. lia.
Qed.

Lemma remaining_idle (s : State) : state s = S_IDLE -> remaining s = 0.
Proof.
  intros H. unfold remaining. rewrite H.
  unfold S_IDLE, S_ZC_OFFSET, S_DELAY, S_TRIGGER, ZC_OFFSET, SAFETY_TIMEOUT,
    TRIGGER_PULSE_WIDTH.
  cbn [Z.eqb Pos.eqb]. lia.
Qed.

Lemma isr_progress (p : Z) (s : State) :
  calibMode s = false -> phase_inv s -> state s <> S_IDLE ->
  0 <= remaining (TIMER1_COMPA_vect p s) <= remaining s - 1.
Proof.
  intros Hc Hp Hn.
  unfold phase_inv, ZC_OFFSET, SAFETY_TIMEOUT, TRIGGER_PULSE_WIDTH in *.
  destruct Hp as [[Hs _] | [[Hs [Hr _]] | [[Hs [Hr _]] | [Hs [Hr _]]]]];
    [contradiction | | | ].
  - rewrite (remaining_offset s Hs).
    destruct (Z.lt_ge_cases (counter s + 1) 8).
    + rewrite isr_offset_wait; try assumption; unfold ZC_OFFSET; try lia.
      rewrite remaining_offset by (fields; rewrite poll_state; exact Hs).
      fields. lia.
    + rewrite isr_offset_done; try assumption; unfold ZC_OFFSET; try lia.
      rewrite remaining_delay by reflexivity. fields. lia.
  - rewrite (remaining_delay s Hs).
    destruct (Z.le_gt_cases (dimValue s) (counter s + 1)).
    + rewrite isr_delay_fire; try assumption; try lia.
      rewrite remaining_trigger by reflexivity. fields. lia.
    + destruct (Z.lt_ge_cases (counter s + 1) 210).
      * rewrite isr_delay_wait; try assumption; unfold SAFETY_TIMEOUT; try lia.
        rewrite remaining_delay by (fields; rewrite poll_state; exact Hs).
        fields. lia.
      * rewrite isr_delay_timeout; try assumption; unfold SAFETY_TIMEOUT; try lia.
        rewrite remaining_idle by reflexivity. lia.
  - rewrite (remaining_trigger s Hs).
    destruct (Z.lt_ge_cases (counter s + 1) 10).
    + rewrite isr_trigger_hold; try assumption; unfold TRIGGER_PULSE_WIDTH; try lia.
      rewrite remaining_trigger by (fields; rewrite poll_state; exact Hs).
      fields. lia.
    + rewrite isr_trigger_end; try assumption; unfold TRIGGER_PULSE_WIDTH; try lia.
      rewrite remaining_idle by reflexivity. lia.
Qed.

Lemma step_progress (s : State) (i : TickIn) :
  calibMode s = false -> phase_inv s -> state s <> S_IDLE ->
  0 <= remaining (step s i) <= remaining s - 1.
Proof.
  intros Hc Hp Hn.
  assert (Eb : remaining (background (bg_adc i) s) = remaining s)
    by (destruct (bg_adc i); reflexivity).
  rewrite <- Eb. unfold step. apply isr_progress; autorewrite with isr;
    try assumption.
  apply background_phase_inv. exact Hp.
Qed.

Lemma idle_within (m : nat) : forall (s : State) (ins : list TickIn),
  Inv s -> remaining s <= Z.of_nat m -> (m <= length ins)%nat ->
  exists k, (k <= m)%nat /\ state (run s (firstn k ins)) = S_IDLE /\
            triac (run s (firstn k ins)) = false.
Proof.
  induction m as [|m IH]; intros s ins HI Hrem Hl.
  - destruct (Z.eq_dec (state s) S_IDLE) as [Hs|Hs].
    + exists 0%nat. split; [lia|]. split; [exact Hs|].
      destruct HI as [_ [_ [_ Hp]]]. unfold phase_inv in Hp. rewrite Hs in Hp.
      unfold S_IDLE, S_ZC_OFFSET, S_DELAY, S_TRIGGER in Hp.
      destruct Hp as [[_ T] | [[E _] | [[E _] | [E _]]]];
        [exact T | discriminate E ..].
    + exfalso. destruct HI as [Hc [_ [_ Hp]]].
      destruct ins as [|i ins].
      * unfold phase_inv, ZC_OFFSET, SAFETY_TIMEOUT, TRIGGER_PULSE_WIDTH in *.
        destruct Hp as [[E _] | [[E [R _]] | [[E [R _]] | [E [R _]]]]];
          [contradiction
          | rewrite (remaining_offset s E) in Hrem
          | rewrite (remaining_delay s E) in Hrem
          | rewrite (remaining_trigger s E) in Hrem]; lia.
      * pose proof (step_progress s i Hc Hp Hs). lia.
  - destruct (Z.eq_dec (state s) S_IDLE) as [Hs|Hs].
    + exists 0%nat. split; [lia|]. split; [exact Hs|].
      destruct HI as [_ [_ [_ Hp]]]. unfold phase_inv in Hp. rewrite Hs in Hp.
      unfold S_IDLE, S_ZC_OFFSET, S_DELAY, S_TRIGGER in Hp.
      destruct Hp as [[_ T] | [[E _] | [[E _] | [E _]]]];
        [exact T | discriminate E ..].
    + destruct ins as [|i ins]; [simpl in Hl; lia|]. simpl in Hl.
      pose proof HI as [Hc [_ [_ Hp]]].
      pose proof (step_progress s i Hc Hp Hs) as Pr.
      destruct (IH (step s i) ins) as [k [Hk [A B]]];
        [apply step_Inv; exact HI | lia | lia |].
      exists (S k). split; [lia|]. exact (conj A B).
Qed.

(** X20: the state machine cannot hang.  From every reachable state,
    whatever the sense input and the background loop do, the machine is in
    Idle with the output deasserted at some tick boundary within the next
    ZC_OFFSET + SAFETY_TIMEOUT + TRIGGER_PULSE_WIDTH = 228 ticks. *)
Theorem returns_to_idle (s : State) (ins : list TickIn) :
  reachable s ->
  (Z.to_nat (ZC_OFFSET + SAFETY_TIMEOUT + TRIGGER_PULSE_WIDTH) <= length ins)%nat ->
  exists k,
    (k <= Z.to_nat (ZC_OFFSET + SAFETY_TIMEOUT + TRIGGER_PULSE_WIDTH))%nat /\
    state (run s (firstn k ins)) = S_IDLE /\
    triac (run s (firstn k ins)) = false.
Proof.
  intros Hr Hl. pose proof (reachable_Inv s Hr) as HI.
  apply idle_within; try assumption.
  destruct HI as [_ [_ [_ Hp]]].
  unfold phase_inv, ZC_OFFSET, SAFETY_TIMEOUT, TRIGGER_PULSE_WIDTH in *.
  destruct Hp as [[E _] | [[E [R _]] | [[E [R _]] | [E [R _]]]]];
    [ rewrite (remaining_idle s E) | rewrite (remaining_offset s E)
    | rewrite (remaining_delay s E) | rewrite (remaining_trigger s E)]; lia.
Qed.

Lemma returns_to_idle_sample :
  exists k,
    (k <= Z.to_nat (ZC_OFFSET + SAFETY_TIMEOUT + TRIGGER_PULSE_WIDTH))%nat /\
    state (run delaying (firstn k (repeat (mkIn (Some 1023) 4) 228))) = S_IDLE /\
    triac (run delaying (firstn k (repeat (mkIn (Some 1023) 4) 228))) = false.
Proof.
  apply (returns_to_idle delaying (repeat (mkIn (Some 1023) 4) 228)).
  - exact (run_reachable _ dimmed dimmed_reachable).
  - vm_compute. repeat constructor.
Defined.

(** X21: a write of the delay value takes effect on the next tick: in a
    reachable Delay phase, when the loop has just written a value that the
    phase counter will have reached after its next increment, that tick
    asserts the output and enters Trigger, however far the counter already
    is past the new value. *)
Theorem lowered_delay_fires_next_tick (adc p : Z) (s : State) :
  reachable s -> state s = S_DELAY ->
  dimValue (loop adc s) <= counter s + 1 ->
  state (step s (mkIn (Some adc) p)) = S_TRIGGER /\
  triac (step s (mkIn (Some adc) p)) = true /\
  counter (step s (mkIn (Some adc) p)) = 0.
Proof.
  intros Hr Hs Hd. destruct (reachable_Inv s Hr) as [Hc [_ [_ Hp]]].
  assert (Hcnt : 0 <= counter s < SAFETY_TIMEOUT).
  { unfold phase_inv in Hp. rewrite Hs in Hp.
    unfold S_IDLE, S_ZC_OFFSET, S_DELAY, S_TRIGGER in Hp.
    destruct Hp as [[E _] | [[E _] | [[_ [R _]] | [E _]]]];
      [discriminate E | discriminate E | exact R | discriminate E]. }
  unfold SAFETY_TIMEOUT in Hcnt.
  unfold step. cbn [bg_adc pinb_in background].
  rewrite isr_delay_fire; try assumption; try (cbn; lia).
  autorewrite with isr. unfold port_set. fields. auto.
Qed.

Lemma lowered_delay_sample :
  counter (run dimmed (quiet (4 :: repeat 0 75))) = 67 /\
  dimValue (run dimmed (quiet (4 :: repeat 0 75))) = 80 /\
  state (step (run dimmed (quiet (4 :: repeat 0 75))) (mkIn (Some 0) 0)) = S_TRIGGER /\
  triac (step (run dimmed (quiet (4 :: repeat 0 75))) (mkIn (Some 0) 0)) = true /\
  counter (step (run dimmed (quiet (4 :: repeat 0 75))) (mkIn (Some 0) 0)) = 0.
Proof.
  split; [vm_compute; reflexivity|]. split; [vm_compute; reflexivity|].
  apply (lowered_delay_fires_next_tick 0 0 (run dimmed (quiet (4 :: repeat 0 75)))).
  - exact (run_reachable _ dimmed dimmed_reachable).
  - vm_compute; reflexivity.
  - vm_compute. discriminate.
Defined.
